(** * Music-Spreadsheet-Tool: the export script and its token cache

    A shallow embedding of [main.py] and [spotify_auth.py].  Python values
    are an inductive type, a [dict] is a [gmap] with string keys, exceptions
    are values of an error monad, and everything the scripts do to the
    outside (standard output, the worksheet, the token file, the clock) is a
    field of an explicit [world] that the functions thread along. *)

From stdpp Require Import gmap strings list fin_maps pretty.

Set Warnings "-register-all".

(** ** Python values and exceptions *)

Module Py.

(** The values that travel through the scripts: what [json] decoding
    produces, which is also what the records hold.  A number is an [int]. *)
Inductive pyval :=
| PyNone
| PyBool (b : bool)
| PyInt (n : Z)
| PyStr (s : string)
| PyList (l : list pyval)
| PyDict (d : gmap string pyval).

(** The exceptions below all derive from [Exception], so that
    [except Exception] catches each of them. *)
Inductive exn :=
| KeyError (key : string)
| TypeError (msg : string)
| ValueError (msg : string)
| AttributeError (msg : string)
| OSError (msg : string)
| ServiceError (msg : string).

(** [str(e)] *)
Definition str_exn (e : exn) : string :=
  match e with
  | KeyError k => "'" +:+ k +:+ "'"
  | TypeError m | ValueError m | AttributeError m | OSError m
  | ServiceError m => m
  end.

Inductive result (A : Type) :=
| Ok (a : A)
| Raise (e : exn).
Arguments Ok {A} a.
Arguments Raise {A} e.

Definition rbind {A B} (r : result A) (k : A → result B) : result B :=
  match r with
  | Ok a => k a
  | Raise e => Raise e
  end.

Definition is_ok {A} (r : result A) : bool :=
  match r with Ok _ => true | Raise _ => false end.

Declare Scope res_scope.
Delimit Scope res_scope with res.
Notation "x <- c ;; k" := (rbind c (λ x, k))
  (at level 100, c at next level, right associativity) : res_scope.

(** [bool(v)] *)
Definition truthy (v : pyval) : bool :=
  match v with
  | PyNone => false
  | PyBool b => b
  | PyInt n => negb (n =? 0)%Z
  | PyStr s => negb (String.eqb s "")
  | PyList l => match l with [] => false | _ => true end
  | PyDict d => negb (bool_decide (d = ∅))
  end.

(** [v[key]] for a string [key]: only a [dict] can be subscripted so. *)
Definition getitem (v : pyval) (key : string) : result pyval :=
  match v with
  | PyDict d =>
      match d !! key with
      | Some x => Ok x
      | None => Raise (KeyError key)
      end
  | PyStr _ => Raise (TypeError "string indices must be integers")
  | PyList _ => Raise (TypeError "list indices must be integers or slices, not str")
  | _ => Raise (TypeError "object is not subscriptable")
  end.

(** [v.get(key, default)], a method of [dict] only *)
Definition get_method (v : pyval) (key : string) (default : pyval) : result pyval :=
  match v with
  | PyDict d =>
      match d !! key with
      | Some x => Ok x
      | None => Ok default
      end
  | _ => Raise (AttributeError "object has no attribute 'get'")
  end.

(** [d.get(key, default)] on a value known to be a [dict] *)
Definition dict_get (d : gmap string pyval) (key : string) (default : pyval) : pyval :=
  match d !! key with
  | Some x => x
  | None => default
  end.

Fixpoint chars (s : string) : list string :=
  match s with
  | EmptyString => []
  | String c s' => String c EmptyString :: chars s'
  end.

(** What [for x in v] runs through.  A [dict] yields its keys; their order
    is that of [map_to_list], which no caller can observe: each of them
    subscripts the element by a string first, and that raises on a [str]. *)
Definition iterate (v : pyval) : result (list pyval) :=
  match v with
  | PyList l => Ok l
  | PyStr s => Ok (PyStr <$> chars s)
  | PyDict d => Ok ((λ kv : string * pyval, PyStr kv.1) <$> map_to_list d)
  | _ => Raise (TypeError "object is not iterable")
  end.

Fixpoint mapM {A B} (f : A → result B) (l : list A) : result (list B) :=
  match l with
  | [] => Ok []
  | x :: l' => (y <- f x ;; ys <- mapM f l' ;; Ok (y :: ys))%res
  end.

Definition as_str (v : pyval) : result string :=
  match v with
  | PyStr s => Ok s
  | _ => Raise (TypeError "sequence item: expected str instance")
  end.

(** [sep.join(v)] *)
Definition join (sep : string) (v : pyval) : result string :=
  (xs <- iterate v ;;
   ss <- mapM as_str xs ;;
   Ok (String.concat sep ss))%res.

Fixpoint take_chars (n : nat) (s : string) : string :=
  match n, s with
  | S n', String c s' => String c (take_chars n' s')
  | _, _ => EmptyString
  end.

(** [v[:n]] *)
Definition slice_to (n : nat) (v : pyval) : result pyval :=
  match v with
  | PyList l => Ok (PyList (take n l))
  | PyStr s => Ok (PyStr (take_chars n s))
  | PyDict _ => Raise (TypeError "unhashable type: 'slice'")
  | _ => Raise (TypeError "object is not subscriptable")
  end.

(** [l[i:j]] on a list, for [0 <= i] *)
Definition slice {A} (l : list A) (i j : nat) : list A :=
  take (j - i) (drop i l).

(** [range(start, stop, step)] for a positive [step], by counting up while
    below [stop]; [fuel] bounds the number of elements. *)
Fixpoint range_from (fuel start stop step : nat) : list nat :=
  match fuel with
  | O => []
  | S fuel' =>
      if bool_decide (start < stop)
      then start :: range_from fuel' (start + step) stop step
      else []
  end.

Definition range (start stop step : nat) : list nat :=
  range_from (stop - start) start stop step.

End Py.

(** ** The world outside the interpreter *)

Module Env.
Import Py.

(** What a run does that can be seen from outside, in the order it happens. *)
Inductive event :=
| Print (line : string)
| Sleep (secs : Z)
| GSpread (call : string)
| GetRange (a1 : string)
| AppendRows (values : list (list pyval))
| IsTokenExpired (token_info : pyval) (answer : bool)
| RefreshAccessToken (refresh_token : pyval)
| FileWrite (path text : string)
| FileRemove (path : string).

(** The worksheet is a grid of cells, row by row.  [script] holds the
    outcome of each of the coming calls to the spreadsheet service, [None]
    for a call that goes through; once it is used up every call goes
    through.  [files] maps a path to the text of the file. *)
Record world := World {
  trace : list event;
  sheet : list (list pyval);
  script : list (option exn);
  clock : Z;
  files : gmap string string
}.

Definition M (A : Type) : Type := world → result A * world.

Definition ret {A} (a : A) : M A := λ w, (Ok a, w).

Definition bind {A B} (m : M A) (k : A → M B) : M B :=
  λ w, match m w with
       | (Ok a, w') => k a w'
       | (Raise e, w') => (Raise e, w')
       end.

Definition lift {A} (r : result A) : M A := λ w, (r, w).

(** [try: body / except Exception as e: handler]: what [body] did before it
    raised stays done. *)
Definition try_except {A} (body : M A) (handler : exn → M A) : M A :=
  λ w, match body w with
       | (Ok a, w') => (Ok a, w')
       | (Raise e, w') => handler e w'
       end.

Declare Scope py_scope.
Delimit Scope py_scope with py.
Notation "x <- c ;; k" := (bind c (λ x, k))
  (at level 100, c at next level, right associativity) : py_scope.
Notation "c ;; k" := (bind c (λ _, k))
  (at level 100, right associativity) : py_scope.

(** [for x in xs: body x] *)
Fixpoint for_each {A} (xs : list A) (body : A → M unit) : M unit :=
  match xs with
  | [] => ret tt
  | x :: xs' => (body x ;; for_each xs' body)%py
  end.

Definition emit (e : event) : M unit :=
  λ w, (Ok tt, World (trace w ++ [e]) (sheet w) (script w) (clock w) (files w)).

Definition print (line : string) : M unit := emit (Print line).

(** [time.sleep(secs)] *)
Definition sleep (secs : Z) : M unit :=
  (emit (Sleep secs) ;;
   λ w, (Ok tt, World (trace w) (sheet w) (script w) (clock w + secs) (files w)))%py.

(** The next call to the spreadsheet service goes through or raises. *)
Definition service : M unit :=
  λ w, match script w with
       | [] => (Ok tt, w)
       | o :: rest =>
           let w' := World (trace w) (sheet w) rest (clock w) (files w) in
           match o with
           | None => (Ok tt, w')
           | Some e => (Raise e, w')
           end
       end.

(** A step of connecting to the spreadsheet: only whether it raises matters. *)
Definition gspread (call : string) : M unit :=
  (emit (GSpread call) ;; service)%py.

(** The handle [spreadsheet.sheet1]: the one grid of the [world]. *)
Inductive worksheet : Set := Sheet1.

Definition blank (cell : pyval) : bool :=
  match cell with
  | PyNone => true
  | PyStr s => String.eqb s ""
  | _ => false
  end.

(** The values of the range [A1]: the service leaves empty cells out, so
    the list is empty when the cell holds nothing, the reading the script's
    comment ("if sheet is empty") relies on. *)
Definition values_A1 (grid : list (list pyval)) : pyval :=
  match grid with
  | (cell :: _) :: _ => if blank cell then PyList [] else PyList [PyList [cell]]
  | _ => PyList []
  end.

(** [worksheet.get('A1')] *)
Definition worksheet_get_A1 (ws : worksheet) : M pyval :=
  (emit (GetRange "A1") ;;
   service ;;
   λ w, (Ok (values_A1 (sheet w)), w))%py.

(** [worksheet.append_rows(values)]: the rows go below the ones there, all
    of them or, when the call raises, none. *)
Definition worksheet_append_rows (ws : worksheet) (values : list (list pyval)) : M unit :=
  (emit (AppendRows values) ;;
   service ;;
   λ w, (Ok tt, World (trace w) (sheet w ++ values) (script w) (clock w) (files w)))%py.

(** [os.path.exists(path)] *)
Definition path_exists (path : string) : M bool :=
  λ w, (Ok (bool_decide (is_Some (files w !! path))), w).

(** [open(path, 'r')] and reading it whole *)
Definition read_file (path : string) : M string :=
  λ w, match files w !! path with
       | Some text => (Ok text, w)
       | None => (Raise (OSError "No such file or directory"), w)
       end.

(** [open(path, 'w')] truncates, the write then fills the file. *)
Definition open_truncate (path : string) : M unit :=
  λ w, (Ok tt, World (trace w) (sheet w) (script w) (clock w) (<[path := ""]> (files w))).

Definition write_file (path text : string) : M unit :=
  (emit (FileWrite path text) ;;
   λ w, (Ok tt, World (trace w) (sheet w) (script w) (clock w) (<[path := text]> (files w))))%py.

(** [os.remove(path)] *)
Definition remove_file (path : string) : M unit :=
  λ w, match files w !! path with
       | Some _ =>
           (Ok tt, World (trace w ++ [FileRemove path]) (sheet w) (script w) (clock w)
                     (delete path (files w)))
       | None => (Raise (OSError "No such file or directory"), w)
       end.

(** [w] with the events [es] added to its trace *)
Definition logged (w : world) (es : list event) : world :=
  World (trace w ++ es) (sheet w) (script w) (clock w) (files w).

(** The [datetime] class, as far as the script uses it. *)
Class Datetime := {
  datetime : Type;
  fromtimestamp : Z → datetime;
  strptime : string → string → result datetime;
  strftime : datetime → string → string
}.

(** [datetime.now()] *)
Definition datetime_now `{Datetime} : M datetime :=
  λ w, (Ok (fromtimestamp (clock w)), w).

End Env.

(** ** [main.py] *)

Module Main.
Import Py Env.

(** The [spotipy.Spotify] client, as far as the fetchers use it: what each
    endpoint answers for its arguments, a decoded JSON object or an
    exception. *)
Record spotify := Spotify {
  current_user_recently_played : Z → result pyval;
  current_user_top_tracks : Z → string → result pyval;
  current_user_top_artists : Z → string → result pyval
}.

Section main.
Context `{Datetime}.
Local Open Scope py_scope.

Definition headers : list (list pyval) :=
  [[PyStr "Timestamp"; PyStr "Type"; PyStr "Track Name"; PyStr "Artist(s)";
    PyStr "Album"; PyStr "Duration (ms)"; PyStr "Popularity"; PyStr "Played At";
    PyStr "Context"]].

(** The four calls that lead to the worksheet take their arguments from
    [config]; here only their going through or raising shows. *)
Definition get_google_sheet : M (option worksheet) :=
  try_except
    (gspread "ServiceAccountCredentials.from_json_keyfile_name" ;;
     gspread "gspread.authorize" ;;
     gspread "client.open" ;;
     gspread "spreadsheet.sheet1" ;;
     let worksheet := Sheet1 in
     a1 <- worksheet_get_A1 worksheet ;;
     (if negb (truthy a1) then worksheet_append_rows worksheet headers else ret tt) ;;
     ret (Some worksheet))
    (λ e,
     print ("Google Sheets error: " +:+ str_exn e) ;;
     ret None).

(** [', '.join([artist['name'] for artist in v])] *)
Definition artist_names (v : pyval) : result string :=
  (xs <- iterate v ;;
   names <- mapM (λ artist, getitem artist "name") xs ;;
   join ", " (PyList names))%res.

(** The played-at stamp of a recent item, reformatted. *)
Definition format_played_at (played_at : pyval) : result string :=
  if truthy played_at then
    (s <- match played_at with
          | PyStr s => Ok s
          | _ => Raise (TypeError "strptime() argument 1 must be str")
          end ;;
     dt <- strptime s "%Y-%m-%dT%H:%M:%S.%fZ" ;;
     Ok (strftime dt "%Y-%m-%d %H:%M:%S"))%res
  else Ok "".

(** The body of the loop of [get_recently_played]: the record of one item. *)
Definition recent_record (item : pyval) : result (gmap string pyval) :=
  (track <- getitem item "track" ;;
   played_at <- get_method item "played_at" (PyStr "") ;;
   played_at_formatted <- format_played_at played_at ;;
   track_artists <- getitem track "artists" ;;
   artists <- artist_names track_artists ;;
   track_name <- getitem track "name" ;;
   album <- getitem track "album" ;;
   album_name <- getitem album "name" ;;
   duration_ms <- getitem track "duration_ms" ;;
   popularity <- getitem track "popularity" ;;
   context <- getitem item "context" ;;
   context_type <-
     (if truthy context
      then (context <- getitem item "context" ;; getitem context "type")
      else Ok (PyStr "Unknown")) ;;
   Ok (<["type" := PyStr "recent"]>
       (<["track_name" := track_name]>
       (<["artists" := PyStr artists]>
       (<["album" := album_name]>
       (<["duration_ms" := duration_ms]>
       (<["popularity" := popularity]>
       (<["played_at" := PyStr played_at_formatted]>
       (<["context" := context_type]> ∅)))))))))%res.

(** [for x in items: data.append(body x)], on the local list [data] *)
Fixpoint collect (body : pyval → result (gmap string pyval)) (items : list pyval)
    (data : list (gmap string pyval)) : result (list (gmap string pyval)) :=
  match items with
  | [] => Ok data
  | item :: items' => (r <- body item ;; collect body items' (data ++ [r]))%res
  end.

(** What [for item in results['items']] runs through. *)
Definition response_items (results : pyval) : result (list pyval) :=
  (results_items <- getitem results "items" ;; iterate results_items)%res.

(** The loop of a fetcher over the items of the response, from the empty
    list on. *)
Definition map_items (body : pyval → result (gmap string pyval)) (results : pyval)
    : result (list (gmap string pyval)) :=
  (items <- response_items results ;;
   collect body items [])%res.

(** The [try] block of [get_recently_played]; it prints nothing. *)
Definition recently_played_data (sp : spotify) (limit : Z) : result (list (gmap string pyval)) :=
  (results <- current_user_recently_played sp limit ;;
   map_items recent_record results)%res.

Definition get_recently_played (sp : spotify) (limit : Z) : M (list (gmap string pyval)) :=
  try_except
    (lift (recently_played_data sp limit))
    (λ e,
     print ("Error fetching recently played: " +:+ str_exn e) ;;
     ret []).

(** The body of the loop of [get_top_tracks]. *)
Definition top_track_record (time_range : string) (track : pyval) : result (gmap string pyval) :=
  (track_artists <- getitem track "artists" ;;
   artists <- artist_names track_artists ;;
   track_name <- getitem track "name" ;;
   album <- getitem track "album" ;;
   album_name <- getitem album "name" ;;
   duration_ms <- getitem track "duration_ms" ;;
   popularity <- getitem track "popularity" ;;
   Ok (<["type" := PyStr ("top_" +:+ time_range)]>
       (<["track_name" := track_name]>
       (<["artists" := PyStr artists]>
       (<["album" := album_name]>
       (<["duration_ms" := duration_ms]>
       (<["popularity" := popularity]>
       (<["played_at" := PyStr ""]>
       (<["context" := PyStr "top_tracks"]> ∅)))))))))%res.

(** The [try] block of [get_top_tracks]; it prints nothing. *)
Definition top_tracks_data (sp : spotify) (limit : Z) (time_range : string)
    : result (list (gmap string pyval)) :=
  (results <- current_user_top_tracks sp limit time_range ;;
   map_items (top_track_record time_range) results)%res.

Definition get_top_tracks (sp : spotify) (limit : Z) (time_range : string)
    : M (list (gmap string pyval)) :=
  try_except
    (lift (top_tracks_data sp limit time_range))
    (λ e,
     print ("Error fetching top tracks: " +:+ str_exn e) ;;
     ret []).

(** The body of the loop of [get_top_artists]. *)
Definition top_artist_record (time_range : string) (artist : pyval) : result (gmap string pyval) :=
  (name <- getitem artist "name" ;;
   popularity <- getitem artist "popularity" ;;
   artist_genres <- getitem artist "genres" ;;
   first3 <- slice_to 3 artist_genres ;;
   genres <- join ", " first3 ;;
   Ok (<["type" := PyStr ("artist_" +:+ time_range)]>
       (<["track_name" := PyStr ""]>
       (<["artists" := name]>
       (<["album" := PyStr ""]>
       (<["duration_ms" := PyStr ""]>
       (<["popularity" := popularity]>
       (<["played_at" := PyStr ""]>
       (<["context" := PyStr "top_artists"]>
       (<["genres" := PyStr genres]> ∅))))))))))%res.

(** The [try] block of [get_top_artists] up to its [print]. *)
Definition top_artists_data (sp : spotify) (limit : Z) (time_range : string)
    : result (list (gmap string pyval)) :=
  (results <- current_user_top_artists sp limit time_range ;;
   map_items (top_artist_record time_range) results)%res.

Definition get_top_artists (sp : spotify) (limit : Z) (time_range : string)
    : M (list (gmap string pyval)) :=
  try_except
    (artists_data <- lift (top_artists_data sp limit time_range) ;;
     print ("Found " +:+ pretty (length artists_data) +:+ " top artists") ;;
     ret artists_data)
    (λ e,
     print ("âœ— Error fetching top artists: " +:+ str_exn e) ;;
     ret []).

(** The row of one record; [timestamp] is the stamp of the run. *)
Definition row_of (timestamp : string) (item : gmap string pyval) : list pyval :=
  [PyStr timestamp;
   dict_get item "type" (PyStr "");
   dict_get item "track_name" (PyStr "");
   dict_get item "artists" (PyStr "");
   dict_get item "album" (PyStr "");
   dict_get item "duration_ms" (PyStr "");
   dict_get item "popularity" (PyStr "");
   dict_get item "played_at" (PyStr "");
   dict_get item "context" (PyStr "")].

(** [for item in data: rows.append(row)], on the local list [rows] *)
Fixpoint build_rows (timestamp : string) (data : list (gmap string pyval))
    (rows : list (list pyval)) : list (list pyval) :=
  match data with
  | [] => rows
  | item :: data' => build_rows timestamp data' (rows ++ [row_of timestamp item])
  end.

Definition batch_size : nat := 50.

(** One turn of the batch loop, for the index [i]. *)
Definition write_batch (worksheet : worksheet) (rows : list (list pyval)) (i : nat) : M unit :=
  let batch := slice rows i (i + batch_size) in
  try_except
    (worksheet_append_rows worksheet batch ;;
     sleep 1)
    (λ e, print ("âœ— Error adding batch: " +:+ str_exn e)).

Definition export_to_sheets (worksheet : worksheet) (data : list (gmap string pyval)) : M unit :=
  match data with
  | [] => print "No data to export"
  | _ =>
      now <- datetime_now ;;
      let timestamp := strftime now "%Y-%m-%d %H:%M:%S" in
      let rows := build_rows timestamp data [] in
      for_each (range 0 (length rows) batch_size) (write_batch worksheet rows)
  end.

End main.
End Main.

(** ** [spotify_auth.py] *)

Module SpotifyAuth.
Import Py Env.

(** The [spotipy] and [json] libraries and the builtin [str], as far as
    [authenticate_spotify] uses them.  [new_SpotifyOAuth] is the constructor
    fed from [config]; [current_user] is the first request of a client built
    on the auth manager, which runs the authorization-code flow. *)
Class Spotipy := {
  new_SpotifyOAuth : result unit;
  is_token_expired : pyval → result bool;
  refresh_access_token : pyval → result pyval;
  current_user : result pyval;
  json_load : string → result pyval;
  json_dump : pyval → result string;
  str : pyval → string
}.

(** The client that comes back: built on a bare access token, or on the
    auth manager. *)
Inductive client :=
| ClientAuth (access_token : pyval)
| ClientAuthManager.

Section auth.
Context `{Spotipy}.
Local Open Scope py_scope.

Definition token_file : string := "spotify_token.json".

(** The [if sp_oauth.is_token_expired(token_info)] block: it gives the
    token to go on with. *)
Definition refresh_if_expired (token_info : pyval) : M pyval :=
  expired <- lift (is_token_expired token_info) ;;
  emit (IsTokenExpired token_info expired) ;;
  if (expired : bool) then
    print "🔄 Token expired, refreshing..." ;;
    refresh_token <- lift (getitem token_info "refresh_token") ;;
    emit (RefreshAccessToken refresh_token) ;;
    token_info <- lift (refresh_access_token refresh_token) ;;
    open_truncate token_file ;;
    text <- lift (json_dump token_info) ;;
    write_file token_file text ;;
    ret token_info
  else ret token_info.

(** The [if os.path.exists(token_file)] block: [Some sp] when it returns
    the client, [None] when control falls through to the fresh
    authentication. *)
Definition saved_token : M (option client) :=
  found <- path_exists token_file ;;
  if (found : bool) then
    print "📁 Found existing token file" ;;
    try_except
      (text <- read_file token_file ;;
       token_info <- lift (json_load text) ;;
       lift new_SpotifyOAuth ;;
       token_info <- refresh_if_expired token_info ;;
       access_token <- lift (getitem token_info "access_token") ;;
       print "✓ Authenticated with saved token" ;;
       ret (Some (ClientAuth access_token)))
      (λ e,
       print ("✗ Error with saved token: " +:+ str_exn e) ;;
       print "Starting fresh authentication..." ;;
       remove_file token_file ;;
       ret None)
  else ret None.

Definition fresh_authentication : M (option client) :=
  print "🌐 Opening browser for Spotify authentication..." ;;
  print "If browser doesn't open, visit the URL shown below" ;;
  try_except
    (lift new_SpotifyOAuth ;;
     user <- lift current_user ;;
     display_name <- lift (getitem user "display_name") ;;
     print ("✓ Successfully authenticated as: " +:+ str display_name) ;;
     email <- lift (getitem user "email") ;;
     print ("✓ Email: " +:+ str email) ;;
     ret (Some ClientAuthManager))
    (λ e,
     print ("✗ Authentication failed: " +:+ str_exn e) ;;
     print (String (Ascii.ascii_of_nat 10) "Troubleshooting tips:") ;;
     print "1. Make sure your Client ID and Secret in config.py are correct" ;;
     print "2. Ensure the Redirect URI matches exactly: http://localhost:8888/callback" ;;
     print "3. Check that you've added this URI in your Spotify App settings" ;;
     ret None).

Definition authenticate_spotify : M (option client) :=
  print "🔑 Starting Spotify authentication..." ;;
  saved <- saved_token ;;
  match saved with
  | Some sp => ret (Some sp)
  | None => fresh_authentication
  end.

End auth.
End SpotifyAuth.

(** ** What a run shows: the vocabulary of the properties *)

Module Obs.
Import Py Env Main.

(** The events a computation adds to the trace of [w]. *)
Definition events_of {A} (m : M A) (w : world) : list event :=
  drop (length (trace w)) (trace (m w).2).

(** The batches handed to [append_rows], in the order of the calls. *)
Fixpoint appended (es : list event) : list (list (list pyval)) :=
  match es with
  | [] => []
  | AppendRows values :: es' => values :: appended es'
  | _ :: es' => appended es'
  end.

(** What the batch loop must show for one batch, given how the call ends:
    the call once, then the pause, or the message instead. *)
Definition batch_events (batch : list (list pyval)) (o : option exn) : list event :=
  match o with
  | None => [AppendRows batch; Sleep 1]
  | Some e => [AppendRows batch; Print ("âœ— Error adding batch: " +:+ str_exn e)]
  end.

(** ... and for the batches in a row, the [k]-th call ending as the [k]-th
    entry of the script says. *)
Fixpoint batch_trace (batches : list (list (list pyval))) (s : list (option exn))
    : list event :=
  match batches with
  | [] => []
  | b :: bs => batch_events b (default None (head s)) ++ batch_trace bs (tail s)
  end.

(** The rows of the batches whose call went through. *)
Fixpoint batch_kept (batches : list (list (list pyval))) (s : list (option exn))
    : list (list pyval) :=
  match batches with
  | [] => []
  | b :: bs =>
      match default None (head s) with
      | None => b
      | Some _ => []
      end ++ batch_kept bs (tail s)
  end.

(** The items of a response whose ["items"] is a list. *)
Definition items_of (results : pyval) : list pyval :=
  match getitem results "items" with
  | Ok (PyList items) => items
  | _ => []
  end.

(** A response is well formed when it has the shape the service documents,
    as far as the fetchers read it: an object whose ["items"] is a list of
    well-formed items. *)
Definition wf_response (wf_item : pyval → bool) (results : pyval) : bool :=
  match getitem results "items" with
  | Ok (PyList items) => forallb wf_item items
  | _ => false
  end.

(** An artist of a track: an object with a name that is a string. *)
Definition wf_artist_ref (artist : pyval) : bool :=
  match getitem artist "name" with
  | Ok (PyStr _) => true
  | _ => false
  end.

(** A track: name, list of artists, album with a name, duration and
    popularity. *)
Definition wf_track (track : pyval) : bool :=
  is_ok (getitem track "name")
  && match getitem track "artists" with
     | Ok (PyList artists) => forallb wf_artist_ref artists
     | _ => false
     end
  && match getitem track "album" with
     | Ok album => is_ok (getitem album "name")
     | _ => false
     end
  && is_ok (getitem track "duration_ms")
  && is_ok (getitem track "popularity").

(** A play-history item: a track, a context that is [null] or an object
    with a type, and a played-at stamp that, when there is one, reads in the
    format of the service. *)
Definition wf_recent_item `{Datetime} (item : pyval) : bool :=
  match getitem item "track" with
  | Ok track => wf_track track
  | _ => false
  end
  && match getitem item "context" with
     | Ok context => negb (truthy context) || is_ok (getitem context "type")
     | _ => false
     end
  && match get_method item "played_at" (PyStr "") with
     | Ok played_at => is_ok (format_played_at played_at)
     | _ => false
     end.

Definition is_str (v : pyval) : bool :=
  match v with PyStr _ => true | _ => false end.

(** An artist: name, popularity and a list of genres, each a string. *)
Definition wf_artist (artist : pyval) : bool :=
  is_ok (getitem artist "name")
  && is_ok (getitem artist "popularity")
  && match getitem artist "genres" with
     | Ok (PyList genres) => forallb is_str genres
     | _ => false
     end.

(** The documented mapping from a track to the fields of its record. *)
Definition track_fields (track : pyval) (r : gmap string pyval) : Prop :=
  ∃ name artists each names album album_name duration_ms popularity,
    getitem track "name" = Ok name
    ∧ r !! "track_name" = Some name
    ∧ getitem track "artists" = Ok artists
    ∧ iterate artists = Ok each
    ∧ Forall2 (λ artist n, getitem artist "name" = Ok (PyStr n)) each names
    ∧ r !! "artists" = Some (PyStr (String.concat ", " names))
    ∧ getitem track "album" = Ok album
    ∧ getitem album "name" = Ok album_name
    ∧ r !! "album" = Some album_name
    ∧ getitem track "duration_ms" = Ok duration_ms
    ∧ r !! "duration_ms" = Some duration_ms
    ∧ getitem track "popularity" = Ok popularity
    ∧ r !! "popularity" = Some popularity.

(** ... and from an artist, who has no track, album or duration. *)
Definition artist_fields (artist : pyval) (r : gmap string pyval) : Prop :=
  ∃ name popularity,
    getitem artist "name" = Ok name
    ∧ r !! "artists" = Some name
    ∧ getitem artist "popularity" = Ok popularity
    ∧ r !! "popularity" = Some popularity
    ∧ r !! "track_name" = Some (PyStr "")
    ∧ r !! "album" = Some (PyStr "")
    ∧ r !! "duration_ms" = Some (PyStr "").

(** The stamp of a run of the sheet writer that starts in [w]. *)
Definition run_stamp `{Datetime} (w : world) : string :=
  strftime (fromtimestamp (clock w)) "%Y-%m-%d %H:%M:%S".

End Obs.

(** ** Sample inputs *)

Module Sample.
Import Py Env Obs Main.

(** A [datetime] that is the number of seconds: it prints in decimal and
    reads one stamp back. *)
Definition seconds : Datetime := {|
  datetime := Z;
  fromtimestamp := λ t, t;
  strptime := λ s _,
    if String.eqb s "2024-05-01T10:20:30.000Z" then Ok 1714558830%Z
    else Raise (ValueError "time data does not match format");
  strftime := λ t _, pretty t
|}.

(** An empty worksheet, every call going through, at second 1000. *)
Definition w0 : world := World [] [] [] 1000 ∅.

(** The same with the second call to the service failing. *)
Definition w_fail : world := World [] [] [None; Some (ServiceError "quota exceeded")] 1000 ∅.

Definition record (i : nat) : gmap string pyval :=
  <["type" := PyStr "recent"]> (<["popularity" := PyInt (Z.of_nat i)]> ∅).

Definition records (n : nat) : list (gmap string pyval) := record <$> seq 0 n.

(** An artist as the service describes one, with four genres. *)
Definition artist_item : pyval :=
  PyDict (<["name" := PyStr "Nina Simone"]>
          (<["popularity" := PyInt 71]>
          (<["genres" := PyList [PyStr "jazz"; PyStr "soul"; PyStr "blues"; PyStr "folk"]]> ∅))).

(** Its record, as [get_top_artists] builds it. *)
Definition artist_record : gmap string pyval :=
  <["type" := PyStr "artist_medium_term"]>
  (<["track_name" := PyStr ""]>
  (<["artists" := PyStr "Nina Simone"]>
  (<["album" := PyStr ""]>
  (<["duration_ms" := PyStr ""]>
  (<["popularity" := PyInt 71]>
  (<["played_at" := PyStr ""]>
  (<["context" := PyStr "top_artists"]>
  (<["genres" := PyStr "jazz, soul, blues"]> ∅)))))))).

Definition artist_ref (name : string) : pyval := PyDict (<["name" := PyStr name]> ∅).

Definition track (artists : list pyval) : pyval :=
  PyDict (<["name" := PyStr "Sinnerman"]>
          (<["artists" := PyList artists]>
          (<["album" := PyDict (<["name" := PyStr "Pastel Blues"]> ∅)]>
          (<["duration_ms" := PyInt 622000]>
          (<["popularity" := PyInt 64]> ∅))))).

(** A play with two artists, a stamp and no context. *)
Definition recent_item : pyval :=
  PyDict (<["track" := track [artist_ref "Nina Simone"; artist_ref "Al Schackman"]]>
          (<["played_at" := PyStr "2024-05-01T10:20:30.000Z"]>
          (<["context" := PyNone]> ∅))).

(** A play with no artists, no stamp and no context. *)
Definition bare_item : pyval :=
  PyDict (<["track" := track []]> (<["context" := PyNone]> ∅)).

Definition response (items : list pyval) : pyval := PyDict (<["items" := PyList items]> ∅).

(** A client that answers every request. *)
Definition sp : spotify := {|
  current_user_recently_played := λ _, Ok (response [recent_item; bare_item]);
  current_user_top_tracks := λ _ _, Ok (response [track [artist_ref "Nina Simone"]]);
  current_user_top_artists := λ _ _, Ok (response [artist_item])
|}.

(** A client whose requests all fail. *)
Definition sp_down : spotify := {|
  current_user_recently_played := λ _, Raise (ServiceError "http status: 503");
  current_user_top_tracks := λ _ _, Raise (ServiceError "http status: 503");
  current_user_top_artists := λ _ _, Raise (ServiceError "http status: 503")
|}.

Definition artist_row : list pyval :=
  [PyStr "1000"; PyStr "artist_medium_term"; PyStr ""; PyStr "Nina Simone"; PyStr "";
   PyStr ""; PyInt 71; PyStr ""; PyStr "top_artists"].

End Sample.

(** ** [main.py]: the entry point *)

Module Entry.
Import Py Env Main.

(** The two [spotipy] constructors of [get_spotify_client], fed from
    [config]: each gives its object or raises. *)
Class Connect := {
  SpotifyOAuth_new : result unit;
  Spotify_new : result spotify
}.

Section entry.
Context `{Datetime} `{Connect}.
Local Open Scope py_scope.

Definition get_spotify_client : M (option spotify) :=
  try_except
    (lift SpotifyOAuth_new ;;
     sp <- lift Spotify_new ;;
     ret (Some sp))
    (λ e,
     print ("Spotify authentication error: " +:+ str_exn e) ;;
     ret None).

(** The summary that follows the export. *)
Definition print_summary (recent_tracks top_tracks_short top_tracks_medium top_artists
    all_data : list (gmap string pyval)) : M unit :=
  print (String (Ascii.ascii_of_nat 10) "ðŸ“ˆ Data Summary:") ;;
  print ("  Recently Played: " +:+ pretty (length recent_tracks) +:+ " tracks") ;;
  print ("  Top Tracks (4 weeks): " +:+ pretty (length top_tracks_short) +:+ " tracks") ;;
  print ("  Top Tracks (6 months): " +:+ pretty (length top_tracks_medium) +:+ " tracks") ;;
  print ("  Top Artists: " +:+ pretty (length top_artists) +:+ " artists") ;;
  print ("  Total exported: " +:+ pretty (length all_data) +:+ " rows").

(** Steps 3 and 4 of [main], once the client and the worksheet are there. *)
Definition fetch_and_export (sp : spotify) (worksheet : worksheet) : M unit :=
  recent_tracks <- get_recently_played sp 50 ;;
  top_tracks_short <- get_top_tracks sp 20 "short_term" ;;
  top_tracks_medium <- get_top_tracks sp 20 "medium_term" ;;
  top_artists <- get_top_artists sp 20 "medium_term" ;;
  let all_data := recent_tracks ++ top_tracks_short ++ top_tracks_medium ++ top_artists in
  match all_data with
  | [] => print "No data fetched from Spotify"
  | _ =>
      export_to_sheets worksheet all_data ;;
      print_summary recent_tracks top_tracks_short top_tracks_medium top_artists all_data
  end.

Definition main : M unit :=
  sp <- get_spotify_client ;;
  match sp with
  | None => ret tt
  | Some sp =>
      worksheet <- get_google_sheet ;;
      match worksheet with
      | None => ret tt
      | Some worksheet => fetch_and_export sp worksheet
      end
  end.

End entry.
End Entry.

(** ** More vocabulary: calls to the service, runs one after the other *)

Module Calls.
Import Py Env Main Entry Obs.

(** How the next call to the spreadsheet service ends. *)
Definition next_outcome (s : list (option exn)) : result unit :=
  match s with
  | Some e :: _ => Raise e
  | _ => Ok tt
  end.

(** [w] after a call that shows as the event [e] and changes nothing else. *)
Definition called (w : world) (e : event) : world :=
  World (trace w ++ [e]) (sheet w) (tail (script w)) (clock w) (files w).

(** Every call of the script goes through. *)
Definition all_through (s : list (option exn)) : Prop :=
  Forall (λ o, o = None) s.

(** The four ways a run of [get_google_sheet] can go: a call fails before
    the header is due, the sheet has a value in [A1] and is left alone, the
    header is appended, or appending it fails. *)
Inductive sheet_run (w : world) : Prop :=
| run_failed e :
    (get_google_sheet w).1 = Ok None →
    Some e ∈ script w →
    appended (events_of get_google_sheet w) = [] →
    last (events_of get_google_sheet w)
    = Some (Print ("Google Sheets error: " +:+ str_exn e)) →
    sheet (get_google_sheet w).2 = sheet w →
    sheet_run w
| run_kept :
    (get_google_sheet w).1 = Ok (Some Sheet1) →
    truthy (values_A1 (sheet w)) = true →
    appended (events_of get_google_sheet w) = [] →
    sheet (get_google_sheet w).2 = sheet w →
    sheet_run w
| run_headed :
    (get_google_sheet w).1 = Ok (Some Sheet1) →
    truthy (values_A1 (sheet w)) = false →
    appended (events_of get_google_sheet w) = [headers] →
    sheet (get_google_sheet w).2 = sheet w ++ headers →
    sheet_run w
| run_header_failed e :
    (get_google_sheet w).1 = Ok None →
    Some e ∈ script w →
    truthy (values_A1 (sheet w)) = false →
    appended (events_of get_google_sheet w) = [headers] →
    last (events_of get_google_sheet w)
    = Some (Print ("Google Sheets error: " +:+ str_exn e)) →
    sheet (get_google_sheet w).2 = sheet w →
    sheet_run w.

(** [n] runs of [get_google_sheet], each starting where the one before
    left the world. *)
Fixpoint rerun (n : nat) (w : world) : world :=
  match n with
  | O => w
  | S n' => rerun n' (get_google_sheet w).2
  end.

(** A computation that leaves clock and files alone, uses up a prefix of
    the script and only adds to the trace. *)
Definition quiet {A} (m : M A) : Prop :=
  ∀ w, clock (m w).2 = clock w
       ∧ files (m w).2 = files w
       ∧ (∃ k, script (m w).2 = drop k (script w))
       ∧ ∃ es, trace (m w).2 = trace w ++ es.

(** What a fetcher hands on: the records, or nothing when its block raised. *)
Definition fetched (r : result (list (gmap string pyval))) : list (gmap string pyval) :=
  match r with
  | Ok recs => recs
  | Raise _ => []
  end.

(** The records [main] puts together from the four requests of a client. *)
Definition all_data `{Datetime} (sp : spotify) : list (gmap string pyval) :=
  fetched (recently_played_data sp 50)
  ++ fetched (top_tracks_data sp 20 "short_term")
  ++ fetched (top_tracks_data sp 20 "medium_term")
  ++ fetched (top_artists_data sp 20 "medium_term").

End Calls.

(** ** The ways through the saved-token block *)

Module Paths.
Import Py Env SpotifyAuth.

(** What the [except] branch of the saved-token block shows. *)
Definition gave_up (e : exn) : list event :=
  [Print ("✗ Error with saved token: " +:+ str_exn e);
   Print "Starting fresh authentication...";
   FileRemove token_file].

(** [saved_path text sp es content]: on a token file that holds [text], the
    block gives [sp], shows [es] after its first line, and leaves the file
    with [content], or removes it.  One rule for each place where the block
    can raise, and one for each of its two good ends. *)
Inductive saved_path `{Spotipy} (text : string)
    : option client → list event → option string → Prop :=
| path_unreadable e :
    json_load text = Raise e →
    saved_path text None (gave_up e) None
| path_no_manager token_info e :
    json_load text = Ok token_info →
    new_SpotifyOAuth = Raise e →
    saved_path text None (gave_up e) None
| path_expiry_unknown token_info e :
    json_load text = Ok token_info →
    new_SpotifyOAuth = Ok tt →
    is_token_expired token_info = Raise e →
    saved_path text None (gave_up e) None
| path_valid token_info access_token :
    json_load text = Ok token_info →
    new_SpotifyOAuth = Ok tt →
    is_token_expired token_info = Ok false →
    getitem token_info "access_token" = Ok access_token →
    saved_path text (Some (ClientAuth access_token))
      [IsTokenExpired token_info false; Print "✓ Authenticated with saved token"]
      (Some text)
| path_valid_no_access token_info e :
    json_load text = Ok token_info →
    new_SpotifyOAuth = Ok tt →
    is_token_expired token_info = Ok false →
    getitem token_info "access_token" = Raise e →
    saved_path text None (IsTokenExpired token_info false :: gave_up e) None
| path_no_refresh_token token_info e :
    json_load text = Ok token_info →
    new_SpotifyOAuth = Ok tt →
    is_token_expired token_info = Ok true →
    getitem token_info "refresh_token" = Raise e →
    saved_path text None
      ([IsTokenExpired token_info true; Print "🔄 Token expired, refreshing..."]
       ++ gave_up e) None
| path_refresh_failed token_info refresh_token e :
    json_load text = Ok token_info →
    new_SpotifyOAuth = Ok tt →
    is_token_expired token_info = Ok true →
    getitem token_info "refresh_token" = Ok refresh_token →
    refresh_access_token refresh_token = Raise e →
    saved_path text None
      ([IsTokenExpired token_info true; Print "🔄 Token expired, refreshing...";
        RefreshAccessToken refresh_token] ++ gave_up e) None
| path_dump_failed token_info refresh_token token_info' e :
    json_load text = Ok token_info →
    new_SpotifyOAuth = Ok tt →
    is_token_expired token_info = Ok true →
    getitem token_info "refresh_token" = Ok refresh_token →
    refresh_access_token refresh_token = Ok token_info' →
    json_dump token_info' = Raise e →
    saved_path text None
      ([IsTokenExpired token_info true; Print "🔄 Token expired, refreshing...";
        RefreshAccessToken refresh_token] ++ gave_up e) None
| path_refreshed_no_access token_info refresh_token token_info' text' e :
    json_load text = Ok token_info →
    new_SpotifyOAuth = Ok tt →
    is_token_expired token_info = Ok true →
    getitem token_info "refresh_token" = Ok refresh_token →
    refresh_access_token refresh_token = Ok token_info' →
    json_dump token_info' = Ok text' →
    getitem token_info' "access_token" = Raise e →
    saved_path text None
      ([IsTokenExpired token_info true; Print "🔄 Token expired, refreshing...";
        RefreshAccessToken refresh_token; FileWrite token_file text'] ++ gave_up e) None
| path_refreshed token_info refresh_token token_info' text' access_token :
    json_load text = Ok token_info →
    new_SpotifyOAuth = Ok tt →
    is_token_expired token_info = Ok true →
    getitem token_info "refresh_token" = Ok refresh_token →
    refresh_access_token refresh_token = Ok token_info' →
    json_dump token_info' = Ok text' →
    getitem token_info' "access_token" = Ok access_token →
    saved_path text (Some (ClientAuth access_token))
      [IsTokenExpired token_info true; Print "🔄 Token expired, refreshing...";
       RefreshAccessToken refresh_token; FileWrite token_file text';
       Print "✓ Authenticated with saved token"]
      (Some text').

(** The files once the block is through. *)
Definition files_after (content : option string) (fs : gmap string string)
    : gmap string string :=
  match content with
  | Some text => <[token_file := text]> fs
  | None => delete token_file fs
  end.

(** The lines of a fresh authentication that fails with [e]. *)
Definition failed_lines (e : exn) : list string :=
  ["✗ Authentication failed: " +:+ str_exn e;
   String (Ascii.ascii_of_nat 10) "Troubleshooting tips:";
   "1. Make sure your Client ID and Secret in config.py are correct";
   "2. Ensure the Redirect URI matches exactly: http://localhost:8888/callback";
   "3. Check that you've added this URI in your Spotify App settings"].

(** The profile that the fresh authentication needs: the user, with a
    display name and an e-mail address. *)
Definition profile `{Spotipy} : result (pyval * pyval) :=
  (_ <- new_SpotifyOAuth ;;
   user <- current_user ;;
   display_name <- getitem user "display_name" ;;
   email <- getitem user "email" ;;
   Ok (display_name, email))%res.

End Paths.

(** ** More sample worlds *)

Module Scenario.
Import Py Env Main.

(** A sheet that holds the header and one row, with a service whose first
    and fourth calls fail. *)
Definition w_headed : world :=
  World [] (headers ++ [Sample.artist_row])
    [Some (ServiceError "timeout"); None; None; Some (ServiceError "timeout")] 1000 ∅.

(** An empty sheet and a service whose calls fail now and then. *)
Definition w_flaky : world :=
  World [] []
    [None; Some (ServiceError "quota exceeded");
     None; None; None; None; None; Some (ServiceError "quota exceeded");
     None; None; None; None; None; None]
    1000 ∅.

(** The record of [Sample.bare_item]. *)
Definition bare_record : gmap string pyval :=
  <["type" := PyStr "recent"]>
  (<["track_name" := PyStr "Sinnerman"]>
  (<["artists" := PyStr ""]>
  (<["album" := PyStr "Pastel Blues"]>
  (<["duration_ms" := PyInt 622000]>
  (<["popularity" := PyInt 64]>
  (<["played_at" := PyStr ""]>
  (<["context" := PyStr "Unknown"]> ∅))))))).

(** A play from a playlist. *)
Definition playlist_item : pyval :=
  PyDict (<["track" := Sample.track [Sample.artist_ref "Nina Simone"]]>
          (<["played_at" := PyStr "2024-05-01T10:20:30.000Z"]>
          (<["context" := PyDict (<["type" := PyStr "playlist"]> ∅)]> ∅))).

(** A client whose answers each hold one item that lacks what the fetcher
    reads, after one that is fine. *)
Definition sp_one_bad : spotify := {|
  current_user_recently_played := λ _, Ok (Sample.response [Sample.recent_item; PyDict ∅]);
  current_user_top_tracks := λ _ _,
    Ok (Sample.response [Sample.track [Sample.artist_ref "Nina Simone"]; PyDict ∅]);
  current_user_top_artists := λ _ _, Ok (Sample.response [Sample.artist_item; PyDict ∅])
|}.

(** A client whose answers have no ["items"]. *)
Definition sp_no_items : spotify := {|
  current_user_recently_played := λ _, Ok (PyDict ∅);
  current_user_top_tracks := λ _ _, Ok (PyDict ∅);
  current_user_top_artists := λ _ _, Ok (PyDict ∅)
|}.

(** The constructors of the client: they give [sp], or the first raises. *)
Definition connect (sp : spotify) : Entry.Connect := {|
  Entry.SpotifyOAuth_new := Ok tt;
  Entry.Spotify_new := Ok sp
|}.

Definition connect_down : Entry.Connect := {|
  Entry.SpotifyOAuth_new := Raise (ServiceError "You must supply a client_id");
  Entry.Spotify_new := Ok Sample.sp
|}.

End Scenario.

(** ** Sample tokens *)

Module AuthSample.
Import Py Env SpotifyAuth.

Definition token (expires_at : Z) (access_token : string) : gmap string pyval :=
  <["access_token" := PyStr access_token]> (<["expires_at" := PyInt expires_at]> ∅).

(** A token that is good for a while, one that has expired, and one that
    has expired and has lost its refresh token. *)
Definition valid_token : pyval :=
  PyDict (<["refresh_token" := PyStr "r-1"]> (token 1700003600 "a-1")).
Definition expired_token : pyval :=
  PyDict (<["refresh_token" := PyStr "r-1"]> (token 1600000000 "a-0")).
Definition stale_token : pyval := PyDict (token 1600000000 "a-0").

(** The token that the service gives for the refresh token ["r-1"]. *)
Definition new_token : pyval :=
  PyDict (<["refresh_token" := PyStr "r-1"]> (token 1700007200 "a-2")).

Definition user (with_email : bool) : pyval :=
  PyDict (<["display_name" := PyStr "Nina"]>
          (if with_email then <["email" := PyStr "nina@example.org"]> ∅ else ∅)).

(** A library at second 1700000000.  The text of a file stands for the JSON
    document of the token that it names; any other text does not parse. *)
Definition library (with_email : bool) : Spotipy := {|
  new_SpotifyOAuth := Ok tt;
  is_token_expired := λ token_info,
    match getitem token_info "expires_at" with
    | Ok (PyInt expires_at) => Ok (expires_at - 1700000000 <? 60)%Z
    | Ok _ => Raise (TypeError "unsupported operand type(s) for -")
    | Raise e => Raise e
    end;
  refresh_access_token := λ refresh_token,
    match refresh_token with
    | PyStr "r-1" => Ok new_token
    | _ => Raise (ServiceError "invalid_grant")
    end;
  current_user := Ok (user with_email);
  json_load := λ text,
    if String.eqb text "valid" then Ok valid_token
    else if String.eqb text "expired" then Ok expired_token
    else if String.eqb text "stale" then Ok stale_token
    else Raise (ValueError "Expecting value");
  json_dump := λ _, Ok "refreshed";
  str := λ v, match v with PyStr s => s | _ => "?" end
|}.

(** A world whose token file holds [text]. *)
Definition with_token (text : string) : world :=
  World [] [] [] 1700000000 (<[token_file := text]> ∅).

End AuthSample.

(** * Properties *)

Import Py Env Obs.

(** ** Lists, ranges and slices *)

Section range_facts.
Context {A : Type}.
Implicit Types (l : list A) (fuel start stop step : nat).

Lemma slice_length l i j : length (slice l i j) ≤ j - i.
Proof. unfold slice. rewrite length_take. lia. Qed.

(** With enough fuel the slices at the indices of a range tile the list
    from [start] on. *)
Lemma range_slices_concat l fuel start step :
  0 < step → length l - start ≤ fuel →
  concat ((λ i, slice l i (i + step)) <$> range_from fuel start (length l) step)
  = drop start l.
Proof.
  intros Hstep. revert start.
  induction fuel as [|fuel IH]; intros start Hfuel; simpl.
  - rewrite drop_ge; [done | lia].
  - case_bool_decide as Hlt; simpl.
    + rewrite IH by lia. unfold slice.
      replace (start + step - start) with step by lia.
      rewrite <- drop_drop. apply take_drop.
    + rewrite drop_ge; [done | lia].
Qed.

(** The number of indices is the least [k] with [stop <= start + k * step]. *)
Lemma range_from_length fuel start stop step :
  0 < step → stop - start ≤ fuel →
  let k := length (range_from fuel start stop step) in
  stop - start ≤ step * k ∧ step * k < stop - start + step.
Proof.
  intros Hstep. revert start.
  induction fuel as [|fuel IH]; intros start Hfuel; simpl.
  - lia.
  - case_bool_decide as Hlt; simpl; [|lia].
    destruct (IH (start + step)) as [IH1 IH2]; [lia|].
    split; [lia|].
    destruct (decide (start + step ≤ stop)); [lia|].
    assert (length (range_from fuel (start + step) stop step) = 0) as -> by nia.
    lia.
Qed.

End range_facts.

(** ** The trace vocabulary *)

Lemma appended_app es1 es2 : appended (es1 ++ es2) = appended es1 ++ appended es2.
Proof.
  induction es1 as [|e es1 IH]; [done|].
  destruct e; simpl; rewrite ?IH; done.
Qed.

Lemma appended_batch_events b o : appended (batch_events b o) = [b].
Proof. by destruct o. Qed.

Lemma appended_batch_trace bs s : appended (batch_trace bs s) = bs.
Proof.
  revert s. induction bs as [|b bs IH]; intros s; simpl; [done|].
  by rewrite appended_app, appended_batch_events, IH.
Qed.

Lemma events_of_logged {A} (m : M A) w es :
  trace (m w).2 = trace w ++ es → events_of m w = es.
Proof. intros Heq. unfold events_of. rewrite Heq. apply drop_app_length. Qed.

(** ** The sheet writer *)

Section export.
Context `{Datetime}.
Import Main.

Lemma build_rows_fmap ts data rows :
  build_rows ts data rows = rows ++ (row_of ts <$> data).
Proof.
  revert rows. induction data as [|item data IH]; intros rows; simpl.
  - by rewrite app_nil_r.
  - by rewrite IH, <- app_assoc.
Qed.

(** One turn of the batch loop never raises; the head of the script decides
    between the two ways it can go. *)
Lemma write_batch_step ws rows i w :
  let b := slice rows i (i + batch_size) in
  (write_batch ws rows i w).1 = Ok tt
  ∧ trace (write_batch ws rows i w).2
    = trace w ++ batch_events b (default None (head (script w)))
  ∧ sheet (write_batch ws rows i w).2
    = sheet w ++ match default None (head (script w)) with None => b | Some _ => [] end
  ∧ script (write_batch ws rows i w).2 = tail (script w).
Proof.
  unfold write_batch, try_except, worksheet_append_rows, sleep, print, bind, emit, service.
  simpl. destruct (script w) as [|[e|] s]; simpl;
    rewrite <- ?app_assoc, ?app_nil_r; done.
Qed.

Lemma for_each_write_batch ws rows idxs w :
  let bs := (λ i, slice rows i (i + batch_size)) <$> idxs in
  let w' := (for_each idxs (write_batch ws rows) w).2 in
  (for_each idxs (write_batch ws rows) w).1 = Ok tt
  ∧ trace w' = trace w ++ batch_trace bs (script w)
  ∧ sheet w' = sheet w ++ batch_kept bs (script w).
Proof.
  revert w. induction idxs as [|i idxs IH]; intros w; simpl.
  - by rewrite !app_nil_r.
  - destruct (write_batch_step ws rows i w) as (Hr & Ht & Hs & Hc).
    unfold bind. destruct (write_batch ws rows i w) as [r w1].
    simpl in *. subst r.
    destruct (IH w1) as (IHr & IHt & IHs).
    rewrite IHr, IHt, IHs, Ht, Hs, Hc, <- !app_assoc. done.
Qed.

(** The batches of a run: the slices of the rows at the indices of the
    range. *)
Lemma export_to_sheets_run ws data w :
  data ≠ [] →
  let rows := row_of (strftime (fromtimestamp (clock w)) "%Y-%m-%d %H:%M:%S") <$> data in
  let bs := (λ i, slice rows i (i + batch_size)) <$> range 0 (length rows) batch_size in
  let w' := (export_to_sheets ws data w).2 in
  (export_to_sheets ws data w).1 = Ok tt
  ∧ events_of (export_to_sheets ws data) w = batch_trace bs (script w)
  ∧ sheet w' = sheet w ++ batch_kept bs (script w).
Proof.
  intros Hdata. destruct data as [|item data]; [done|].
  unfold export_to_sheets, events_of, bind, datetime_now.
  rewrite build_rows_fmap. simpl app.
  match goal with |- context [for_each ?idxs (write_batch ws ?rows) w] =>
    destruct (for_each_write_batch ws rows idxs w) as (Hr & Ht & Hs) end.
  cbv zeta. rewrite Hr, Ht, Hs, drop_app_length. done.
Qed.

Lemma export_batches_tile (rows : list (list pyval)) :
  let bs := (λ i, slice rows i (i + batch_size)) <$> range 0 (length rows) batch_size in
  concat bs = rows
  ∧ Forall (λ b, length b ≤ batch_size) bs
  ∧ length rows ≤ batch_size * length bs
  ∧ batch_size * length bs < length rows + batch_size.
Proof.
  unfold range, batch_size. split_and!.
  - rewrite range_slices_concat; [done | lia..].
  - apply Forall_fmap, Forall_forall. intros i _. simpl.
    pose proof (slice_length rows i (i + 50)). lia.
  - rewrite length_fmap.
    pose proof (range_from_length (length rows - 0) 0 (length rows) 50). simpl in *. lia.
  - rewrite length_fmap.
    pose proof (range_from_length (length rows - 0) 0 (length rows) 50). simpl in *. lia.
Qed.

End export.

Section export_claims.
Context `{Datetime}.
Import Main.

(** The rows a run hands over are rows of its records, stamped with the
    time at which the run began. *)
Lemma export_row_of_item ws data w values row :
  values ∈ appended (events_of (export_to_sheets ws data) w) →
  row ∈ values →
  ∃ item, item ∈ data ∧ row = row_of (run_stamp w) item.
Proof.
  intros Hvalues Hrow.
  destruct data as [|item data].
  { unfold events_of in Hvalues. simpl in Hvalues.
    rewrite drop_app_length in Hvalues. by apply elem_of_nil in Hvalues. }
  destruct (export_to_sheets_run ws (item :: data) w) as (_ & Hev & _); [done|].
  rewrite Hev, appended_batch_trace in Hvalues. fold (run_stamp w) in Hvalues.
  destruct (export_batches_tile (row_of (run_stamp w) <$> item :: data)) as (Hcat & _).
  set (bs := _ <$> range _ _ _) in *.
  assert (row ∈ concat bs) as Hin.
  { apply list_elem_of_In, in_concat. exists values.
    split; by apply list_elem_of_In. }
  rewrite Hcat in Hin. apply list_elem_of_fmap in Hin as (it & -> & Hit). eauto.
Qed.

(** C1.  A run on [R > 0] records hands the worksheet [ceil(R/50)]
    batches, the least number of fifties that covers [R]; no batch has more
    than 50 rows; and the batches, in the order of the calls, put end to end
    are the rows of the records in the order of the input. *)
Theorem export_batches (ws : worksheet) (data : list (gmap string pyval)) (w : world) :
  0 < length data →
  let batches := appended (events_of (export_to_sheets ws data) w) in
  length batches = Nat.div (length data + 49) 50
  ∧ 50 * (length batches - 1) < length data ≤ 50 * length batches
  ∧ Forall (λ batch, length batch ≤ 50) batches
  ∧ concat batches = row_of (run_stamp w) <$> data.
Proof.
  intros Hpos.
  destruct (export_to_sheets_run ws data w) as (_ & Hev & _).
  { by destruct data; [simpl in Hpos; lia|]. }
  cbv zeta. rewrite Hev, appended_batch_trace. fold (run_stamp w).
  destruct (export_batches_tile (row_of (run_stamp w) <$> data)) as (Hcat & Hall & Hlo & Hhi).
  set (bs := _ <$> range _ _ _) in *.
  rewrite length_fmap in Hlo, Hhi. unfold batch_size in *.
  split_and!; [|lia|lia|done|done].
  apply (Nat.div_unique _ _ _ (length data + 49 - 50 * length bs)); lia.
Qed.

(** C8.  Whatever calls fail, the run ends normally and its events are, for
    each batch in turn, the one call that hands it over followed by the
    pause, or, when the call failed, by the printed message: a failed batch
    is not handed over again, and the batches after it are.  The sheet
    gains the rows of the batches whose call went through. *)
Theorem export_failed_batch_skipped (ws : worksheet) (data : list (gmap string pyval))
    (w : world) :
  data ≠ [] →
  ∃ batches,
    concat batches = row_of (run_stamp w) <$> data
    ∧ (export_to_sheets ws data w).1 = Ok tt
    ∧ events_of (export_to_sheets ws data) w = batch_trace batches (script w)
    ∧ appended (events_of (export_to_sheets ws data) w) = batches
    ∧ sheet (export_to_sheets ws data w).2 = sheet w ++ batch_kept batches (script w).
Proof.
  intros Hdata.
  destruct (export_to_sheets_run ws data w Hdata) as (Hr & Hev & Hs).
  eexists. rewrite Hev, appended_batch_trace.
  split_and!; [|done..].
  apply export_batches_tile.
Qed.

(** C9.  On the empty list the run prints its one line and returns: no call
    to the worksheet, and sheet, script, clock and files as before. *)
Theorem export_nothing (ws : worksheet) (w : world) :
  export_to_sheets ws [] w = (Ok tt, logged w [Print "No data to export"])
  ∧ appended (events_of (export_to_sheets ws []) w) = []
  ∧ sheet (export_to_sheets ws [] w).2 = sheet w.
Proof.
  split_and!; [done| |done].
  unfold events_of. simpl. by rewrite drop_app_length.
Qed.

(** The record of a top artist has a [genres] entry: the first three genres
    of the artist, joined. *)
Lemma top_artist_record_genres time_range artist r :
  top_artist_record time_range artist = Ok r →
  ∃ genres first3 g,
    getitem artist "genres" = Ok genres
    ∧ slice_to 3 genres = Ok first3
    ∧ join ", " first3 = Ok g
    ∧ r !! "genres" = Some (PyStr g).
Proof.
  unfold top_artist_record, rbind. intros Hr.
  destruct (getitem artist "name"); [|done].
  destruct (getitem artist "popularity"); [|done].
  destruct (getitem artist "genres") as [genres|] eqn:Hgenres; [|done].
  destruct (slice_to 3 genres) as [first3|] eqn:Hfirst3; [|done].
  destruct (join ", " first3) as [g|] eqn:Hg; [|done].
  injection Hr as <-. exists genres, first3, g.
  split_and!; [done..|].
  rewrite !lookup_insert_ne by done. apply lookup_insert_eq.
Qed.

(** C7.  A row handed to the worksheet is the row of one of the records:
    nine cells, the stamp and then the eight fields in the order of the nine
    header names.  The [genres] entry that the record of a top artist
    carries (its first three genres, joined) has no cell: the row is the
    same without it. *)
Theorem export_row_schema (ws : worksheet) (data : list (gmap string pyval)) (w : world)
    (values : list (list pyval)) (row : list pyval) :
  values ∈ appended (events_of (export_to_sheets ws data) w) →
  row ∈ values →
  (∃ item, item ∈ data
     ∧ row = [PyStr (run_stamp w);
              dict_get item "type" (PyStr "");
              dict_get item "track_name" (PyStr "");
              dict_get item "artists" (PyStr "");
              dict_get item "album" (PyStr "");
              dict_get item "duration_ms" (PyStr "");
              dict_get item "popularity" (PyStr "");
              dict_get item "played_at" (PyStr "");
              dict_get item "context" (PyStr "")]
     ∧ row = row_of (run_stamp w) (delete "genres" item))
  ∧ length row = 9
  ∧ headers = [[PyStr "Timestamp"; PyStr "Type"; PyStr "Track Name"; PyStr "Artist(s)";
                PyStr "Album"; PyStr "Duration (ms)"; PyStr "Popularity";
                PyStr "Played At"; PyStr "Context"]]
  ∧ (∀ time_range artist r,
       top_artist_record time_range artist = Ok r →
       ∃ genres first3 g,
         getitem artist "genres" = Ok genres
         ∧ slice_to 3 genres = Ok first3
         ∧ join ", " first3 = Ok g
         ∧ r !! "genres" = Some (PyStr g)).
Proof.
  intros Hvalues Hrow.
  destruct (export_row_of_item ws data w values row Hvalues Hrow) as (item & Hitem & ->).
  split_and!; [|done|done|apply top_artist_record_genres].
  exists item. split_and!; [done|done|].
  unfold row_of, dict_get. rewrite !lookup_delete_ne by done. done.
Qed.

(** C10.  Every row of a run starts with the same cell, the stamp taken
    when the run began, whatever the clock shows by the time a later batch
    goes out. *)
Theorem export_rows_share_timestamp (ws : worksheet) (data : list (gmap string pyval))
    (w : world) (values : list (list pyval)) (row : list pyval) :
  values ∈ appended (events_of (export_to_sheets ws data) w) →
  row ∈ values →
  head row = Some (PyStr (run_stamp w)).
Proof.
  intros Hvalues Hrow.
  by destruct (export_row_of_item ws data w values row Hvalues Hrow) as (item & _ & ->).
Qed.

End export_claims.

(** The clock does move during a run: three batches, three pauses. *)
Example export_clock_moves :
  clock (@Main.export_to_sheets Sample.seconds Sheet1 (Sample.records 120) Sample.w0).2
  = 1003%Z.
Proof. vm_compute. reflexivity. Qed.

Lemma export_batches_witness :
  length (appended (events_of (@Main.export_to_sheets Sample.seconds Sheet1 (Sample.records 120))
                      Sample.w0))
  = Nat.div (120 + 49) 50.
Proof.
  assert (0 < length (Sample.records 120)) as Hpos by (vm_compute; lia).
  destruct (@export_batches Sample.seconds Sheet1 (Sample.records 120) Sample.w0 Hpos)
    as (Hlen & _).
  exact Hlen.
Defined.

Lemma export_failed_batch_skipped_witness :
  (@Main.export_to_sheets Sample.seconds Sheet1 (Sample.records 120) Sample.w_fail).1 = Ok tt.
Proof.
  assert (Sample.records 120 ≠ []) as Hdata.
  { intros Heq. apply (f_equal length) in Heq. vm_compute in Heq. discriminate Heq. }
  destruct (@export_failed_batch_skipped Sample.seconds Sheet1 (Sample.records 120)
              Sample.w_fail Hdata) as (batches & _ & Hr & _).
  exact Hr.
Defined.

Lemma export_row_schema_witness :
  length Sample.artist_row = 9.
Proof.
  assert ([Sample.artist_row]
          ∈ appended (events_of (@Main.export_to_sheets Sample.seconds Sheet1
                                   [Sample.artist_record]) Sample.w0)) as Hvalues
    by (vm_compute; left).
  assert (Sample.artist_row ∈ [Sample.artist_row]) as Hrow by left.
  destruct (@export_row_schema Sample.seconds Sheet1 [Sample.artist_record] Sample.w0
              [Sample.artist_row] Sample.artist_row Hvalues Hrow) as (_ & Hlen & _).
  exact Hlen.
Defined.

Lemma export_rows_share_timestamp_witness :
  head Sample.artist_row = Some (PyStr "1000").
Proof.
  assert ([Sample.artist_row]
          ∈ appended (events_of (@Main.export_to_sheets Sample.seconds Sheet1
                                   [Sample.artist_record]) Sample.w0)) as Hvalues
    by (vm_compute; left).
  assert (Sample.artist_row ∈ [Sample.artist_row]) as Hrow by left.
  exact (@export_rows_share_timestamp Sample.seconds Sheet1 [Sample.artist_record] Sample.w0
           [Sample.artist_row] Sample.artist_row Hvalues Hrow).
Defined.

(** ** The fetchers *)

Lemma mapM_Forall2 {A B} (f : A → result B) (l : list A) (ys : list B) :
  mapM f l = Ok ys ↔ Forall2 (λ x y, f x = Ok y) l ys.
Proof.
  revert ys. induction l as [|x l IH]; intros ys; simpl.
  - split; [intros [= <-]; constructor | by inversion 1].
  - unfold rbind. split.
    + destruct (f x) as [y|] eqn:Hy; [|done].
      destruct (mapM f l) as [ys'|]; [|done].
      intros [= <-]. constructor; [done|]. by apply IH.
    + inversion 1 as [|? y ? ys' Hy Hys]; subst.
      rewrite Hy. apply IH in Hys. by rewrite Hys.
Qed.

Lemma mapM_length {A B} (f : A → result B) (l : list A) (ys : list B) :
  mapM f l = Ok ys → length ys = length l.
Proof. intros Hm. apply mapM_Forall2, Forall2_length in Hm. done. Qed.

Lemma mapM_as_str names : mapM as_str (PyStr <$> names) = Ok names.
Proof.
  induction names as [|n names IH]; [done|].
  rewrite fmap_cons. simpl. by rewrite IH.
Qed.

Section fetchers.
Context `{Datetime}.
Import Main.

(** The loop with its local list is a map that stops at the first error. *)
Lemma collect_mapM body items data :
  collect body items data = (rs <- mapM body items ;; Ok (data ++ rs))%res.
Proof.
  revert data. induction items as [|item items IH]; intros data; simpl.
  - by rewrite app_nil_r.
  - unfold rbind. destruct (body item) as [r|]; [|done].
    rewrite IH. unfold rbind. destruct (mapM body items); [|done].
    by rewrite <- app_assoc.
Qed.

Lemma map_items_Ok body results recs :
  map_items body results = Ok recs →
  ∃ items, response_items results = Ok items
           ∧ Forall2 (λ item r, body item = Ok r) items recs.
Proof.
  unfold map_items, rbind.
  destruct (response_items results) as [items|]; [|done].
  rewrite collect_mapM. unfold rbind.
  destruct (mapM body items) as [rs|] eqn:Hrs; [|done].
  intros [= <-]. exists items. split; [done|]. by apply mapM_Forall2.
Qed.

Lemma map_items_wf body wf_item results :
  (∀ item, wf_item item = true → is_ok (body item) = true) →
  wf_response wf_item results = true →
  ∃ recs, map_items body results = Ok recs
          ∧ Forall2 (λ item r, body item = Ok r) (items_of results) recs.
Proof.
  intros Hbody. unfold wf_response, map_items, response_items, items_of, rbind.
  destruct (getitem results "items") as [[| | | |items|]|]; try done. simpl.
  intros Hwf. rewrite collect_mapM. unfold rbind.
  assert (∃ rs, mapM body items = Ok rs) as [rs Hrs].
  { induction items as [|item items IH]; simpl; [by eexists|].
    simpl in Hwf. apply andb_prop in Hwf as [Hitem Hitems].
    apply Hbody in Hitem. destruct (body item); [|done].
    destruct (IH Hitems) as [rs ->]. by eexists. }
  rewrite Hrs. eexists. split; [done|]. by apply mapM_Forall2.
Qed.

(** ** The records *)

Lemma as_str_Ok v n : as_str v = Ok n → v = PyStr n.
Proof. destruct v; simpl; congruence. Qed.

Lemma artist_names_Ok v s :
  artist_names v = Ok s →
  ∃ each names,
    iterate v = Ok each
    ∧ Forall2 (λ artist n, getitem artist "name" = Ok (PyStr n)) each names
    ∧ s = String.concat ", " names.
Proof.
  unfold artist_names, join, rbind. simpl.
  destruct (iterate v) as [each|]; [|done].
  destruct (mapM _ each) as [vals|] eqn:Hvals; [|done].
  destruct (mapM as_str vals) as [names|] eqn:Hnames; [|done].
  intros [= <-]. exists each, names. split_and!; [done| |done].
  apply mapM_Forall2 in Hvals. apply mapM_Forall2 in Hnames.
  revert names Hnames. induction Hvals as [|artist val each vals Hval _ IH];
    intros names Hnames; inversion Hnames as [|? n ? names' Hn Hnames']; subst.
  - constructor.
  - constructor; [|by apply IH]. apply as_str_Ok in Hn. by subst.
Qed.

Lemma artist_names_wf artists :
  forallb wf_artist_ref artists = true → is_ok (artist_names (PyList artists)) = true.
Proof.
  intros Hwf. unfold artist_names, rbind. simpl.
  assert (∃ names, mapM (λ artist, getitem artist "name") artists = Ok (PyStr <$> names))
    as [names ->].
  { induction artists as [|artist artists IH]; [by exists []|].
    simpl in Hwf. apply andb_prop in Hwf as [Hartist Hartists].
    destruct (IH Hartists) as [names Hnames]. unfold wf_artist_ref in Hartist.
    destruct (getitem artist "name") as [[| | |n| |]|] eqn:Hn; try done.
    exists (n :: names). simpl. by rewrite Hn, Hnames. }
  unfold join, rbind. simpl. by rewrite mapM_as_str.
Qed.

(** Takes a hypothesis [H] saying that a chain of steps gave [Ok], and
    names the value of every step. *)
Ltac ok_steps H :=
  repeat match type of H with
    | context [match ?x with Ok _ => _ | Raise _ => _ end] =>
        let E := fresh "E" in destruct x eqn:E; [|discriminate H]
    end.

Ltac lookup_field := rewrite ?lookup_insert_ne by done; apply lookup_insert_eq.

Lemma top_track_record_fields time_range track r :
  top_track_record time_range track = Ok r → track_fields track r.
Proof.
  unfold top_track_record, rbind. intros Hr. ok_steps Hr. injection Hr as <-.
  match goal with E : artist_names _ = Ok _ |- _ =>
    apply artist_names_Ok in E as (each & names & Heach & Hnames & ->) end.
  unfold track_fields. eexists _, _, each, names, _, _, _, _.
  split_and!; try done; lookup_field.
Qed.

Lemma recent_record_fields item r :
  recent_record item = Ok r →
  ∃ track, getitem item "track" = Ok track ∧ track_fields track r.
Proof.
  unfold recent_record, rbind. intros Hr. ok_steps Hr. injection Hr as <-.
  match goal with E : artist_names _ = Ok _ |- _ =>
    apply artist_names_Ok in E as (each & names & Heach & Hnames & ->) end.
  eexists. split; [done|].
  unfold track_fields. eexists _, _, each, names, _, _, _, _.
  split_and!; try done; lookup_field.
Qed.

Lemma top_artist_record_fields time_range artist r :
  top_artist_record time_range artist = Ok r → artist_fields artist r.
Proof.
  unfold top_artist_record, rbind. intros Hr. ok_steps Hr. injection Hr as <-.
  unfold artist_fields. eexists _, _.
  split_and!; try done; lookup_field.
Qed.

Lemma recent_record_context item r context :
  recent_record item = Ok r →
  getitem item "context" = Ok context →
  truthy context = false →
  r !! "context" = Some (PyStr "Unknown").
Proof.
  unfold recent_record, rbind. intros Hr Hcontext Hfalsy.
  rewrite Hcontext, Hfalsy in Hr. ok_steps Hr. injection Hr as <-.
  lookup_field.
Qed.

Lemma recent_record_no_artists item r track artists :
  recent_record item = Ok r →
  getitem item "track" = Ok track →
  getitem track "artists" = Ok artists →
  iterate artists = Ok [] →
  r !! "artists" = Some (PyStr "").
Proof.
  intros Hr Htrack Hartists Hnone.
  assert (artist_names artists = Ok "") as Hnames.
  { unfold artist_names, rbind. by rewrite Hnone. }
  unfold recent_record, rbind in Hr.
  rewrite Htrack in Hr. cbv beta iota in Hr. rewrite Hartists in Hr.
  cbv beta iota in Hr. rewrite Hnames in Hr.
  ok_steps Hr. injection Hr as <-. lookup_field.
Qed.

(** ** Well-formed items give records *)

Lemma top_track_record_wf time_range track :
  wf_track track = true → is_ok (top_track_record time_range track) = true.
Proof.
  unfold wf_track, top_track_record, rbind. intros Hwf.
  repeat (apply andb_prop in Hwf as [Hwf ?]).
  destruct (getitem track "name"); [|done].
  destruct (getitem track "artists") as [[| | | |artists|]|]; try done.
  destruct (getitem track "album") as [album|]; [|done].
  destruct (getitem album "name"); [|done].
  destruct (getitem track "duration_ms"); [|done].
  destruct (getitem track "popularity"); [|done].
  pose proof (artist_names_wf artists) as Hnames.
  destruct (artist_names (PyList artists)); [done|]. by apply Hnames.
Qed.

Lemma recent_record_wf item :
  wf_recent_item item = true → is_ok (recent_record item) = true.
Proof.
  unfold wf_recent_item, wf_track, recent_record, rbind. intros Hwf.
  repeat (apply andb_prop in Hwf as [Hwf ?]).
  destruct (getitem item "track") as [track|]; [|done].
  destruct (get_method item "played_at" (PyStr "")) as [played_at|]; [|done].
  destruct (format_played_at played_at); [|done].
  repeat (apply andb_prop in Hwf as [Hwf ?]).
  destruct (getitem track "name"); [|done].
  destruct (getitem track "artists") as [[| | | |artists|]|]; try done.
  destruct (getitem track "album") as [album|]; [|done].
  destruct (getitem album "name"); [|done].
  destruct (getitem track "duration_ms"); [|done].
  destruct (getitem track "popularity"); [|done].
  destruct (getitem item "context") as [context|]; [|done].
  pose proof (artist_names_wf artists) as Hnames.
  destruct (artist_names (PyList artists)); [|by apply Hnames].
  destruct (truthy context); [|done].
  by destruct (getitem context "type").
Qed.

Lemma top_artist_record_wf time_range artist :
  wf_artist artist = true → is_ok (top_artist_record time_range artist) = true.
Proof.
  unfold wf_artist, top_artist_record, rbind. intros Hwf.
  apply andb_prop in Hwf as [Hwf Hgenres]. apply andb_prop in Hwf as [Hname Hpop].
  destruct (getitem artist "name"); [|done].
  destruct (getitem artist "popularity"); [|done].
  destruct (getitem artist "genres") as [[| | | |genres|]|]; try done.
  simpl. unfold join, rbind. simpl.
  assert (∃ names, mapM as_str (take 3 genres) = Ok names) as [names ->]; [|done].
  generalize 3. revert Hgenres.
  induction genres as [|g genres IH]; intros Hstr n; [by destruct n; eexists|].
  simpl in Hstr. apply andb_prop in Hstr as [Hg Hgs].
  destruct n as [|n]; [by eexists|].
  destruct g; try done. destruct (IH Hgs n) as [names Hnames].
  simpl. rewrite Hnames. by eexists.
Qed.

(** ** What each fetcher returns, from what its [try] block gives *)

Lemma get_recently_played_run sp limit w :
  get_recently_played sp limit w
  = match recently_played_data sp limit with
    | Ok recs => (Ok recs, w)
    | Raise e => (Ok [], logged w [Print ("Error fetching recently played: " +:+ str_exn e)])
    end.
Proof.
  unfold get_recently_played, try_except, lift.
  by destruct (recently_played_data sp limit).
Qed.

Lemma get_top_tracks_run sp limit time_range w :
  get_top_tracks sp limit time_range w
  = match top_tracks_data sp limit time_range with
    | Ok recs => (Ok recs, w)
    | Raise e => (Ok [], logged w [Print ("Error fetching top tracks: " +:+ str_exn e)])
    end.
Proof.
  unfold get_top_tracks, try_except, lift.
  by destruct (top_tracks_data sp limit time_range).
Qed.

Lemma get_top_artists_run sp limit time_range w :
  get_top_artists sp limit time_range w
  = match top_artists_data sp limit time_range with
    | Ok recs =>
        (Ok recs, logged w [Print ("Found " +:+ pretty (length recs) +:+ " top artists")])
    | Raise e =>
        (Ok [], logged w [Print ("âœ— Error fetching top artists: " +:+ str_exn e)])
    end.
Proof.
  unfold get_top_artists, try_except, bind, lift.
  by destruct (top_artists_data sp limit time_range).
Qed.

End fetchers.

Section fetcher_claims.
Context `{Datetime}.
Import Main.

(** C2.  On a well-formed response each fetcher returns one record per
    item, in the order of the items, and the fields of a record are those of
    its item: the name of the track, the names of its artists joined by
    [", "], the name of its album, its duration and its popularity, the
    track being the ["track"] of a play and the item itself among the top
    tracks; for a top artist, who has no track, the name and popularity of
    the artist and empty track, album and duration. *)
Theorem fetchers_flatten (sp : spotify) (limit : Z) (time_range : string) (w : world) :
  (∀ results,
     current_user_recently_played sp limit = Ok results →
     wf_response wf_recent_item results = true →
     ∃ recs,
       get_recently_played sp limit w = (Ok recs, w)
       ∧ length recs = length (items_of results)
       ∧ Forall2 (λ item r, ∃ track, getitem item "track" = Ok track ∧ track_fields track r)
           (items_of results) recs)
  ∧ (∀ results,
       current_user_top_tracks sp limit time_range = Ok results →
       wf_response wf_track results = true →
       ∃ recs,
         get_top_tracks sp limit time_range w = (Ok recs, w)
         ∧ length recs = length (items_of results)
         ∧ Forall2 track_fields (items_of results) recs)
  ∧ (∀ results,
       current_user_top_artists sp limit time_range = Ok results →
       wf_response wf_artist results = true →
       ∃ recs,
         (get_top_artists sp limit time_range w).1 = Ok recs
         ∧ length recs = length (items_of results)
         ∧ Forall2 artist_fields (items_of results) recs).
Proof.
  split_and!; intros results Hresults Hwf.
  - destruct (map_items_wf recent_record _ results recent_record_wf Hwf) as (recs & Hrecs & Hall).
    exists recs. rewrite get_recently_played_run. unfold recently_played_data.
    rewrite Hresults. simpl. rewrite Hrecs. split_and!; [done| |].
    + symmetry. by eapply Forall2_length.
    + eapply Forall2_impl; [done|]. intros item r. apply recent_record_fields.
  - destruct (map_items_wf (top_track_record time_range) _ results
                (top_track_record_wf time_range) Hwf) as (recs & Hrecs & Hall).
    exists recs. rewrite get_top_tracks_run. unfold top_tracks_data.
    rewrite Hresults. simpl. rewrite Hrecs. split_and!; [done| |].
    + symmetry. by eapply Forall2_length.
    + eapply Forall2_impl; [done|]. intros item r. apply top_track_record_fields.
  - destruct (map_items_wf (top_artist_record time_range) _ results
                (top_artist_record_wf time_range) Hwf) as (recs & Hrecs & Hall).
    exists recs. rewrite get_top_artists_run. unfold top_artists_data.
    rewrite Hresults. simpl. rewrite Hrecs. split_and!; [done| |].
    + symmetry. by eapply Forall2_length.
    + eapply Forall2_impl; [done|]. intros item r. apply top_artist_record_fields.
Qed.

(** C3.  In what [get_recently_played] returns, the record of an item whose
    context is empty ([null], as the service sends it) has ["Unknown"] for
    its context, and the record of an item whose track lists no artist has
    the empty string for its artists. *)
Theorem recent_item_defaults (sp : spotify) (limit : Z) (w : world)
    (results : pyval) (items : list pyval) (recs : list (gmap string pyval))
    (i : nat) (item : pyval) (r : gmap string pyval) :
  current_user_recently_played sp limit = Ok results →
  response_items results = Ok items →
  (get_recently_played sp limit w).1 = Ok recs →
  items !! i = Some item →
  recs !! i = Some r →
  (∀ context,
     getitem item "context" = Ok context → truthy context = false →
     r !! "context" = Some (PyStr "Unknown"))
  ∧ (∀ track artists,
       getitem item "track" = Ok track → getitem track "artists" = Ok artists →
       iterate artists = Ok [] →
       r !! "artists" = Some (PyStr "")).
Proof.
  intros Hresults Hitems Hrecs Hitem Hr.
  rewrite get_recently_played_run in Hrecs. unfold recently_played_data in Hrecs.
  rewrite Hresults in Hrecs. simpl in Hrecs.
  destruct (map_items recent_record results) as [recs'|] eqn:Hmap; simpl in Hrecs.
  - injection Hrecs as ->.
    apply map_items_Ok in Hmap as (items' & Hitems' & Hall).
    rewrite Hitems in Hitems'. injection Hitems' as <-.
    pose proof (Forall2_lookup_lr _ _ _ _ _ _ Hall Hitem Hr) as Hrecord.
    split.
    + intros context. by apply recent_record_context.
    + intros track artists. by apply recent_record_no_artists.
  - injection Hrecs as <-. by rewrite lookup_nil in Hr.
Qed.

(** C6.  A fetcher never raises.  When the request raises, or the mapping
    of its answer does, the fetcher returns the empty list, and all it does
    besides is print the one line that names the error. *)
Theorem fetchers_catch_errors (sp : spotify) (limit : Z) (time_range : string) (w : world) :
  (∀ e,
     current_user_recently_played sp limit = Raise e
     ∨ (∃ results, current_user_recently_played sp limit = Ok results
                   ∧ map_items recent_record results = Raise e) →
     get_recently_played sp limit w
     = (Ok [], logged w [Print ("Error fetching recently played: " +:+ str_exn e)]))
  ∧ (∀ e,
       current_user_top_tracks sp limit time_range = Raise e
       ∨ (∃ results, current_user_top_tracks sp limit time_range = Ok results
                     ∧ map_items (top_track_record time_range) results = Raise e) →
       get_top_tracks sp limit time_range w
       = (Ok [], logged w [Print ("Error fetching top tracks: " +:+ str_exn e)]))
  ∧ (∀ e,
       current_user_top_artists sp limit time_range = Raise e
       ∨ (∃ results, current_user_top_artists sp limit time_range = Ok results
                     ∧ map_items (top_artist_record time_range) results = Raise e) →
       get_top_artists sp limit time_range w
       = (Ok [], logged w [Print ("âœ— Error fetching top artists: " +:+ str_exn e)]))
  ∧ is_ok (get_recently_played sp limit w).1 = true
  ∧ is_ok (get_top_tracks sp limit time_range w).1 = true
  ∧ is_ok (get_top_artists sp limit time_range w).1 = true.
Proof.
  rewrite get_recently_played_run, get_top_tracks_run, get_top_artists_run.
  unfold recently_played_data, top_tracks_data, top_artists_data, rbind.
  split_and!.
  - intros e [-> | (results & -> & ->)]; done.
  - intros e [-> | (results & -> & ->)]; done.
  - intros e [-> | (results & -> & ->)]; done.
  - destruct (current_user_recently_played sp limit) as [results|]; [|done].
    by destruct (map_items recent_record results).
  - destruct (current_user_top_tracks sp limit time_range) as [results|]; [|done].
    by destruct (map_items (top_track_record time_range) results).
  - destruct (current_user_top_artists sp limit time_range) as [results|]; [|done].
    by destruct (map_items (top_artist_record time_range) results).
Qed.

End fetcher_claims.

(** ** Calls to the spreadsheet service *)

Import Calls.

Lemma service_run w :
  service w = (next_outcome (script w),
               World (trace w) (sheet w) (tail (script w)) (clock w) (files w)).
Proof. by destruct w as [t sh [|[e|] s] c f]. Qed.

Lemma gspread_run call w :
  gspread call w = (next_outcome (script w), called w (GSpread call)).
Proof.
  unfold gspread, bind, emit. rewrite service_run. simpl.
  by destruct (next_outcome (script w)).
Qed.

Lemma worksheet_get_A1_run ws w :
  worksheet_get_A1 ws w
  = (match next_outcome (script w) with
     | Ok _ => Ok (values_A1 (sheet w))
     | Raise e => Raise e
     end, called w (GetRange "A1")).
Proof.
  unfold worksheet_get_A1, bind, emit. rewrite service_run. simpl.
  by destruct (next_outcome (script w)).
Qed.

Lemma worksheet_append_rows_run ws values w :
  worksheet_append_rows ws values w
  = match next_outcome (script w) with
    | Ok _ => (Ok tt, World (trace w ++ [AppendRows values]) (sheet w ++ values)
                        (tail (script w)) (clock w) (files w))
    | Raise e => (Raise e, called w (AppendRows values))
    end.
Proof.
  unfold worksheet_append_rows, bind, emit. rewrite service_run. simpl.
  by destruct (next_outcome (script w)).
Qed.

Lemma next_outcome_Raise s e : next_outcome s = Raise e → Some e ∈ s.
Proof. destruct s as [|[e'|] s]; simpl; try done. intros [= ->]. left. Qed.

Lemma elem_of_tail {A} (x : A) l : x ∈ tail l → x ∈ l.
Proof. destruct l; simpl; [done|]. by right. Qed.

Lemma drop_of_tail {A} (l : list A) n : drop n (tail l) = drop (S n) l.
Proof. destruct l; simpl; [by rewrite drop_nil|done]. Qed.

Lemma all_through_tail s : all_through s → all_through (tail s).
Proof. destruct s; [done|]. by inversion 1. Qed.


Lemma all_through_next s : all_through s → next_outcome s = Ok tt.
Proof. destruct s as [|[e|] s]; [done| |done]. by inversion 1. Qed.


(** ** [get_google_sheet] *)

Ltac in_script :=
  first [ by apply next_outcome_Raise | apply elem_of_tail; in_script ].

(** Runs [get_google_sheet] in the goal along the outcomes that the
    context gives for its calls. *)
Ltac run_calls :=
  unfold events_of, Main.get_google_sheet, try_except, bind, ret, print, emit;
  repeat (cbn [fst snd script called trace sheet negb];
          rewrite ?gspread_run, ?worksheet_get_A1_run, ?worksheet_append_rows_run;
          cbn [fst snd script called trace sheet negb];
          match goal with
          | E : next_outcome ?s = _ |- context [next_outcome ?s] => rewrite E
          | E : truthy ?v = _ |- context [truthy ?v] => rewrite E
          end);
  cbn [fst snd script called trace sheet negb];
  rewrite <- ?app_assoc, ?drop_app_length;
  cbn [app appended last].

Lemma get_google_sheet_run w : sheet_run w.
Proof.
  destruct (next_outcome (script w)) as [[]|e] eqn:E1;
    [|apply (run_failed w e); [run_calls; done|in_script|run_calls; done..]].
  destruct (next_outcome (tail (script w))) as [[]|e] eqn:E2;
    [|apply (run_failed w e); [run_calls; done|in_script|run_calls; done..]].
  destruct (next_outcome (tail (tail (script w)))) as [[]|e] eqn:E3;
    [|apply (run_failed w e); [run_calls; done|in_script|run_calls; done..]].
  destruct (next_outcome (tail (tail (tail (script w))))) as [[]|e] eqn:E4;
    [|apply (run_failed w e); [run_calls; done|in_script|run_calls; done..]].
  destruct (next_outcome (tail (tail (tail (tail (script w)))))) as [[]|e] eqn:E5;
    [|apply (run_failed w e); [run_calls; done|in_script|run_calls; done..]].
  destruct (truthy (values_A1 (sheet w))) eqn:Hvalue;
    [apply run_kept; [run_calls; done|done|run_calls; done..]|].
  destruct (next_outcome (tail (tail (tail (tail (tail (script w))))))) as [[]|e] eqn:E6.
  - apply run_headed; [run_calls; done|done|run_calls; done..].
  - apply (run_header_failed w e); [run_calls; done|in_script|done|run_calls; done..].
Qed.

(** *** Computations that leave clock and files alone *)

Lemma quiet_ret {A} (a : A) : quiet (ret a).
Proof. intros w. split_and!; [done..|by exists 0|exists []; by rewrite app_nil_r]. Qed.

Lemma quiet_lift {A} (r : result A) : quiet (lift r).
Proof. intros w. split_and!; [done..|by exists 0|exists []; by rewrite app_nil_r]. Qed.

Lemma quiet_emit e : quiet (emit e).
Proof. intros w. split_and!; [done..|by exists 0|by exists [e]]. Qed.

Lemma quiet_bind {A B} (m : M A) (k : A → M B) :
  quiet m → (∀ a, quiet (k a)) → quiet (bind m k).
Proof.
  intros Hm Hk w. unfold bind.
  destruct (Hm w) as (Hc & Hf & [j Hs] & [es Ht]).
  destruct (m w) as [[a|e] w1]; simpl in *.
  - destruct (Hk a w1) as (Hc' & Hf' & [j' Hs'] & [es' Ht']).
    split_and!; [congruence..| |].
    + exists (j + j'). by rewrite Hs', Hs, drop_drop.
    + exists (es ++ es'). by rewrite Ht', Ht, app_assoc.
  - split_and!; [done..|by exists j|by exists es].
Qed.

Lemma quiet_try_except {A} (body : M A) (handler : exn → M A) :
  quiet body → (∀ e, quiet (handler e)) → quiet (try_except body handler).
Proof.
  intros Hm Hk w. unfold try_except.
  destruct (Hm w) as (Hc & Hf & [j Hs] & [es Ht]).
  destruct (body w) as [[a|e] w1]; simpl in *.
  - split_and!; [done..|by exists j|by exists es].
  - destruct (Hk e w1) as (Hc' & Hf' & [j' Hs'] & [es' Ht']).
    split_and!; [congruence..| |].
    + exists (j + j'). by rewrite Hs', Hs, drop_drop.
    + exists (es ++ es'). by rewrite Ht', Ht, app_assoc.
Qed.

Lemma quiet_service : quiet service.
Proof.
  intros w. rewrite service_run. split_and!; [done..| |].
  - exists 1. simpl. by destruct (script w).
  - exists []. simpl. by rewrite app_nil_r.
Qed.

Lemma quiet_gspread call : quiet (gspread call).
Proof. apply quiet_bind; [apply quiet_emit | intros; apply quiet_service]. Qed.

Lemma quiet_worksheet_get_A1 ws : quiet (worksheet_get_A1 ws).
Proof.
  apply quiet_bind; [apply quiet_emit|]. intros _.
  apply quiet_bind; [apply quiet_service|]. intros _ w.
  split_and!; [done..|by exists 0|exists []; simpl; by rewrite app_nil_r].
Qed.

Lemma quiet_worksheet_append_rows ws values : quiet (worksheet_append_rows ws values).
Proof.
  apply quiet_bind; [apply quiet_emit|]. intros _.
  apply quiet_bind; [apply quiet_service|]. intros _ w.
  split_and!; [done..|by exists 0|exists []; simpl; by rewrite app_nil_r].
Qed.

Lemma quiet_print line : quiet (print line).
Proof. apply quiet_emit. Qed.

Lemma quiet_get_google_sheet : quiet Main.get_google_sheet.
Proof.
  unfold Main.get_google_sheet.
  apply quiet_try_except.
  - repeat (apply quiet_bind; [apply quiet_gspread|intros _]).
    apply quiet_bind; [apply quiet_worksheet_get_A1|]. intros a1.
    apply quiet_bind; [|intros; apply quiet_ret].
    destruct (negb (truthy a1)); [apply quiet_worksheet_append_rows | apply quiet_ret].
  - intros e. apply quiet_bind; [apply quiet_print | intros; apply quiet_ret].
Qed.

Lemma quiet_trace {A} (m : M A) w :
  quiet m → trace (m w).2 = trace w ++ events_of m w.
Proof.
  intros Hm. destruct (Hm w) as (_ & _ & _ & [es Ht]).
  unfold events_of. by rewrite Ht, drop_app_length.
Qed.

Lemma values_A1_value cell row rest :
  blank cell = false → truthy (values_A1 ((cell :: row) :: rest)) = true.
Proof. intros Hcell. simpl. by rewrite Hcell. Qed.

(** Runs on a sheet whose first cell holds a value change nothing in it
    and never call [append_rows]. *)
Lemma rerun_populated n w :
  truthy (values_A1 (sheet w)) = true →
  sheet (rerun n w) = sheet w
  ∧ appended (trace (rerun n w)) = appended (trace w).
Proof.
  revert w. induction n as [|n IH]; intros w Hvalue; [done|]. simpl.
  assert (sheet (Main.get_google_sheet w).2 = sheet w
          ∧ appended (events_of Main.get_google_sheet w) = []) as [Hsheet Happ].
  { destruct (get_google_sheet_run w); try done; congruence. }
  destruct (IH (Main.get_google_sheet w).2) as [IHs IHa]; [by rewrite Hsheet|].
  rewrite IHs, IHa, Hsheet.
  rewrite (quiet_trace _ w quiet_get_google_sheet), appended_app, Happ.
  by rewrite app_nil_r.
Qed.


(** X2.  On a sheet whose first cell holds a value, the header for one, any
    number of runs of [get_google_sheet] leaves the rows as they are and
    never calls [append_rows], whichever calls to the service fail. *)
Theorem get_google_sheet_keeps_populated (w : world) (cell : pyval) (row : list pyval)
    (rest : list (list pyval)) (n : nat) :
  sheet w = (cell :: row) :: rest →
  blank cell = false →
  sheet (rerun n w) = sheet w
  ∧ appended (trace (rerun n w)) = appended (trace w).
Proof.
  intros Hsheet Hcell. apply rerun_populated.
  rewrite Hsheet. by apply values_A1_value.
Qed.

(** X3.  [get_google_sheet] never raises.  It returns the worksheet, or it
    returns [None]; in that case a call to the service failed, the rows of
    the sheet are as before, and the last thing the run did was to print
    the error. *)
Theorem get_google_sheet_failure (w : world) :
  (Main.get_google_sheet w).1 = Ok (Some Sheet1)
  ∨ ((Main.get_google_sheet w).1 = Ok None
     ∧ sheet (Main.get_google_sheet w).2 = sheet w
     ∧ ∃ e, Some e ∈ script w
            ∧ last (events_of Main.get_google_sheet w)
              = Some (Print ("Google Sheets error: " +:+ str_exn e))).
Proof.
  destruct (get_google_sheet_run w)
    as [e Hr Hin _ Hlast Hsheet|Hr _ _ _|Hr _ _ _|e Hr Hin _ _ Hlast Hsheet].
  - right. eauto.
  - by left.
  - by left.
  - right. eauto.
Qed.

(** X4.  Runs of [get_google_sheet] that start on an empty sheet never give
    it a second header row: after any number of runs, whichever calls
    fail, the sheet is still empty or holds the header row and nothing
    else. *)
Theorem get_google_sheet_single_header (w : world) (n : nat) :
  sheet w = [] →
  sheet (rerun n w) = [] ∨ sheet (rerun n w) = Main.headers.
Proof.
  revert w. induction n as [|n IH]; intros w Hempty; [by left|]. simpl.
  destruct (get_google_sheet_run w)
    as [e _ _ _ _ Hsheet|_ Hvalue _ _|_ _ _ Hsheet|e _ _ _ _ _ Hsheet].
  - apply IH. congruence.
  - by rewrite Hempty in Hvalue.
  - right. rewrite Hempty in Hsheet. simpl in Hsheet.
    destruct (rerun_populated n (Main.get_google_sheet w).2) as [-> _]; [|done].
    by rewrite Hsheet.
  - apply IH. congruence.
Qed.


Lemma get_google_sheet_keeps_populated_witness :
  sheet (rerun 2 Scenario.w_headed) = sheet Scenario.w_headed.
Proof.
  assert (blank (PyStr "Timestamp") = false) as Hcell by reflexivity.
  destruct (get_google_sheet_keeps_populated Scenario.w_headed (PyStr "Timestamp") _ _ 2
              eq_refl Hcell) as [Hsheet _].
  exact Hsheet.
Defined.

Lemma get_google_sheet_single_header_witness :
  sheet (rerun 3 Scenario.w_flaky) = [] ∨ sheet (rerun 3 Scenario.w_flaky) = Main.headers.
Proof. exact (get_google_sheet_single_header Scenario.w_flaky 3 eq_refl). Defined.

(** The flaky service loses the first run and the header of the second;
    the third run puts the header in. *)
Example rerun_flaky :
  sheet (rerun 1 Scenario.w_flaky) = []
  ∧ sheet (rerun 2 Scenario.w_flaky) = []
  ∧ sheet (rerun 3 Scenario.w_flaky) = Main.headers
  ∧ sheet (rerun 4 Scenario.w_flaky) = Main.headers.
Proof. vm_compute. done. Qed.

(** ** The sheet writer, call by call *)

Lemma range_length (n : nat) : length (range 0 n 50) = Nat.div (n + 49) 50.
Proof.
  pose proof (range_from_length (n - 0) 0 n 50) as Hlen. simpl in Hlen.
  unfold range. set (k := length _) in *.
  apply (Nat.div_unique _ _ _ (n + 49 - 50 * k)); lia.
Qed.

Lemma batch_kept_all_through bs s : all_through s → batch_kept bs s = concat bs.
Proof.
  revert s. induction bs as [|b bs IH]; intros s Hall; simpl; [done|].
  rewrite IH by by apply all_through_tail.
  by destruct s as [|[e|] s]; [|inversion Hall|].
Qed.

(** When one call fails, the [k]-th counting from zero, the rows that are
    kept are those before and those after the fifty of that batch. *)
Lemma batch_kept_one_failure (rows : list (list pyval)) fuel start k e rest :
  length rows - start ≤ fuel →
  start + 50 * k < length rows →
  all_through rest →
  batch_kept ((λ i, slice rows i (i + 50)) <$> range_from fuel start (length rows) 50)
    (replicate k None ++ Some e :: rest)
  = take (50 * k) (drop start rows) ++ drop (start + 50 * (k + 1)) rows.
Proof.
  revert fuel start. induction k as [|k IH]; intros fuel start Hfuel Hlt Hrest.
  - destruct fuel as [|fuel]; [lia|]. simpl.
    rewrite bool_decide_true by lia. simpl.
    rewrite batch_kept_all_through by done.
    rewrite range_slices_concat by lia.
    replace (50 * 0) with 0 by lia. simpl. f_equal; lia.
  - destruct fuel as [|fuel]; [lia|]. simpl range_from.
    rewrite bool_decide_true by lia.
    rewrite fmap_cons. simpl batch_kept.
    rewrite IH by (done || lia).
    unfold slice. replace (start + 50 - start) with 50 by lia.
    rewrite app_assoc, <- (drop_drop rows 50 start), take_take_drop.
    f_equal; f_equal; lia.
Qed.

Section export_calls.
Context `{Datetime}.
Import Main.

Lemma write_batch_through ws rows i w :
  next_outcome (script w) = Ok tt →
  write_batch ws rows i w
  = (Ok tt, World (trace w ++ [AppendRows (slice rows i (i + batch_size)); Sleep 1])
              (sheet w ++ slice rows i (i + batch_size))
              (tail (script w)) (clock w + 1) (files w)).
Proof.
  intros Hnext. unfold write_batch, try_except, sleep, bind, emit.
  rewrite worksheet_append_rows_run, Hnext. simpl. by rewrite <- app_assoc.
Qed.

Lemma for_each_write_batch_through ws rows idxs w :
  all_through (script w) →
  for_each idxs (write_batch ws rows) w
  = (Ok tt,
     World (trace w ++ batch_trace ((λ i, slice rows i (i + batch_size)) <$> idxs) [])
       (sheet w ++ concat ((λ i, slice rows i (i + batch_size)) <$> idxs))
       (drop (length idxs) (script w))
       (clock w + Z.of_nat (length idxs)) (files w)).
Proof.
  revert w. induction idxs as [|i idxs IH]; intros w Hall.
  - simpl. unfold ret. rewrite !app_nil_r, Z.add_0_r. by destruct w.
  - simpl for_each. unfold bind.
    rewrite write_batch_through by by apply all_through_next.
    rewrite IH by by apply all_through_tail.
    cbn [trace sheet script clock files].
    rewrite <- !app_assoc, drop_of_tail.
    replace (clock w + 1 + Z.of_nat (length idxs))%Z
      with (clock w + Z.of_nat (length (i :: idxs)))%Z by (simpl length; lia).
    done.
Qed.

End export_calls.

Section export_extras.
Context `{Datetime}.
Import Main.

Lemma export_to_sheets_through ws data w :
  data ≠ [] →
  all_through (script w) →
  let rows := row_of (run_stamp w) <$> data in
  let batches := Nat.div (length data + 49) 50 in
  ∃ es,
    export_to_sheets ws data w
    = (Ok tt, World (trace w ++ es) (sheet w ++ rows) (drop batches (script w))
                (clock w + Z.of_nat batches) (files w)).
Proof.
  intros Hdata Hall. destruct data as [|item data]; [done|].
  unfold export_to_sheets, bind, datetime_now. cbv beta iota zeta.
  rewrite build_rows_fmap, app_nil_l.
  fold (run_stamp w). set (rows := row_of (run_stamp w) <$> item :: data).
  rewrite for_each_write_batch_through by done.
  destruct (export_batches_tile rows) as (Hcat & _).
  cbv zeta in Hcat. rewrite Hcat, range_length.
  replace (length rows) with (length (item :: data)) by (unfold rows; by rewrite length_fmap).
  by eexists.
Qed.

(** X5.  When no call fails, the sheet ends with the rows of the records,
    all of them and in the order of the input, added below what was there;
    the run pauses one second after each batch, [ceil(R/50)] seconds in
    all, and touches no file. *)
Theorem export_all_through (ws : worksheet) (data : list (gmap string pyval)) (w : world) :
  data ≠ [] →
  all_through (script w) →
  (export_to_sheets ws data w).1 = Ok tt
  ∧ sheet (export_to_sheets ws data w).2 = sheet w ++ (row_of (run_stamp w) <$> data)
  ∧ clock (export_to_sheets ws data w).2
    = (clock w + Z.of_nat (Nat.div (length data + 49) 50))%Z
  ∧ files (export_to_sheets ws data w).2 = files w.
Proof.
  intros Hdata Hall.
  destruct (export_to_sheets_through ws data w Hdata Hall) as [es ->]. done.
Qed.

(** X6.  When one call fails, the [k]-th counting from zero, and the
    others go through, the sheet gains every row but the (at most fifty)
    rows of that batch: the first [50 k] rows and the rows from [50 (k+1)]
    on, in the order of the input. *)
Theorem export_one_failure (ws : worksheet) (data : list (gmap string pyval)) (w : world)
    (k : nat) (e : exn) (rest : list (option exn)) :
  script w = replicate k None ++ Some e :: rest →
  all_through rest →
  50 * k < length data →
  let rows := row_of (run_stamp w) <$> data in
  sheet (export_to_sheets ws data w).2
  = sheet w ++ take (50 * k) rows ++ drop (50 * (k + 1)) rows.
Proof.
  intros Hscript Hrest Hk rows.
  destruct (export_to_sheets_run ws data w) as (_ & _ & ->).
  { intros ->. simpl in Hk. lia. }
  fold (run_stamp w). fold rows. f_equal.
  rewrite Hscript. unfold range, batch_size.
  rewrite batch_kept_one_failure; [done|lia| |done].
  unfold rows. rewrite length_fmap. lia.
Qed.

End export_extras.

Lemma export_all_through_witness :
  clock (@Main.export_to_sheets Sample.seconds Sheet1 (Sample.records 120) Sample.w0).2
  = (1000 + Z.of_nat (Nat.div (length (Sample.records 120) + 49) 50))%Z.
Proof.
  assert (Sample.records 120 ≠ []) as Hdata.
  { intros Heq. apply (f_equal length) in Heq. vm_compute in Heq. discriminate Heq. }
  assert (all_through (script Sample.w0)) as Hall by constructor.
  destruct (@export_all_through Sample.seconds Sheet1 (Sample.records 120) Sample.w0
              Hdata Hall) as (_ & _ & Hclock & _).
  exact Hclock.
Defined.

Lemma export_one_failure_witness :
  sheet (@Main.export_to_sheets Sample.seconds Sheet1 (Sample.records 120) Sample.w_fail).2
  = [] ++ take (50 * 1) (Main.row_of "1000" <$> Sample.records 120)
       ++ drop (50 * (1 + 1)) (Main.row_of "1000" <$> Sample.records 120).
Proof.
  assert (50 * 1 < length (Sample.records 120)) as Hk by (vm_compute; lia).
  assert (all_through []) as Hrest by constructor.
  exact (@export_one_failure Sample.seconds Sheet1 (Sample.records 120) Sample.w_fail
           1 (ServiceError "quota exceeded") [] eq_refl Hrest Hk).
Defined.

(** ** More on the fetchers *)

Lemma fetchers_flatten_witness :
  ∃ recs,
    @Main.get_recently_played Sample.seconds Sample.sp 50 Sample.w0 = (Ok recs, Sample.w0)
    ∧ length recs = 2.
Proof.
  destruct (@fetchers_flatten Sample.seconds Sample.sp 50 "medium_term" Sample.w0)
    as (Hrecent & _ & _).
  assert (wf_response (@wf_recent_item Sample.seconds)
            (Sample.response [Sample.recent_item; Sample.bare_item]) = true) as Hwf
    by (vm_compute; reflexivity).
  destruct (Hrecent _ eq_refl Hwf) as (recs & Hrun & Hlen & _).
  exists recs. split; [exact Hrun|exact Hlen].
Defined.

Lemma recent_item_defaults_witness :
  Scenario.bare_record !! "context" = Some (PyStr "Unknown")
  ∧ Scenario.bare_record !! "artists" = Some (PyStr "").
Proof.
  assert (Main.response_items (Sample.response [Sample.recent_item; Sample.bare_item])
          = Ok [Sample.recent_item; Sample.bare_item]) as Hitems by reflexivity.
  assert (∃ r0, (@Main.get_recently_played Sample.seconds Sample.sp 50 Sample.w0).1
                = Ok [r0; Scenario.bare_record]) as [r0 Hrecs]
    by (eexists; vm_compute; reflexivity).
  destruct (@recent_item_defaults Sample.seconds Sample.sp 50 Sample.w0 _ _ _ 1
              Sample.bare_item Scenario.bare_record eq_refl Hitems Hrecs eq_refl eq_refl)
    as [Hcontext Hartists].
  split.
  - apply (Hcontext PyNone); reflexivity.
  - apply (Hartists (Sample.track []) (PyList [])); reflexivity.
Defined.

Lemma fetchers_catch_errors_witness :
  @Main.get_recently_played Sample.seconds Sample.sp_down 50 Sample.w0
  = (Ok [], logged Sample.w0
              [Print ("Error fetching recently played: "
                      +:+ str_exn (ServiceError "http status: 503"))]).
Proof.
  destruct (@fetchers_catch_errors Sample.seconds Sample.sp_down 50 "medium_term" Sample.w0)
    as (Hrecent & _).
  apply Hrecent. left. reflexivity.
Defined.

Lemma mapM_bad_item {A B} (f : A → result B) (l : list A) (x : A) (e0 : exn) :
  x ∈ l → f x = Raise e0 → ∃ e, mapM f l = Raise e.
Proof.
  intros Hin Hx. induction l as [|y l IH]; [by apply elem_of_nil in Hin|].
  simpl. unfold rbind. apply elem_of_cons in Hin as [<-|Hin].
  - rewrite Hx. by eexists.
  - destruct (f y); [|by eexists].
    destruct (IH Hin) as [e ->]. by eexists.
Qed.

(** Names the value of every step of a chain that gave [Ok]. *)
Ltac name_steps H :=
  repeat match type of H with
    | context [match ?x with Ok _ => _ | Raise _ => _ end] =>
        let E := fresh "E" in destruct x eqn:E; [|discriminate H]
    end.

Ltac field := rewrite ?lookup_insert_ne by done; apply lookup_insert_eq.

Section fetcher_extras.
Context `{Datetime}.
Import Main.

Lemma map_items_bad_item body results items item e0 :
  response_items results = Ok items →
  item ∈ items →
  body item = Raise e0 →
  ∃ e, map_items body results = Raise e.
Proof.
  intros Hitems Hin Hbad. unfold map_items, rbind. rewrite Hitems, collect_mapM.
  destruct (mapM_bad_item body items item e0 Hin Hbad) as [e ->]. by exists e.
Qed.

(** X10.  A fetcher gives all the records or none: when one item of the
    response cannot be mapped, a missing key for one, the fetcher returns
    the empty list, the records of the items that could be mapped
    included, and prints an error. *)
Theorem fetch_all_or_nothing (sp : spotify) (limit : Z) (time_range : string) (w : world)
    (results : pyval) (items : list pyval) (item : pyval) (e0 : exn) :
  response_items results = Ok items →
  item ∈ items →
  (current_user_recently_played sp limit = Ok results →
   recent_record item = Raise e0 →
   ∃ e, get_recently_played sp limit w
        = (Ok [], logged w [Print ("Error fetching recently played: " +:+ str_exn e)]))
  ∧ (current_user_top_tracks sp limit time_range = Ok results →
     top_track_record time_range item = Raise e0 →
     ∃ e, get_top_tracks sp limit time_range w
          = (Ok [], logged w [Print ("Error fetching top tracks: " +:+ str_exn e)]))
  ∧ (current_user_top_artists sp limit time_range = Ok results →
     top_artist_record time_range item = Raise e0 →
     ∃ e, get_top_artists sp limit time_range w
          = (Ok [], logged w [Print ("âœ— Error fetching top artists: " +:+ str_exn e)])).
Proof.
  intros Hitems Hin. split_and!; intros Hresults Hbad.
  - destruct (map_items_bad_item recent_record _ _ _ _ Hitems Hin Hbad) as [e He].
    exists e. rewrite get_recently_played_run. unfold recently_played_data.
    rewrite Hresults. simpl. by rewrite He.
  - destruct (map_items_bad_item (top_track_record time_range) _ _ _ _ Hitems Hin Hbad)
      as [e He].
    exists e. rewrite get_top_tracks_run. unfold top_tracks_data.
    rewrite Hresults. simpl. by rewrite He.
  - destruct (map_items_bad_item (top_artist_record time_range) _ _ _ _ Hitems Hin Hbad)
      as [e He].
    exists e. rewrite get_top_artists_run. unfold top_artists_data.
    rewrite Hresults. simpl. by rewrite He.
Qed.

(** X11.  Every record has the eight keys that the sheet writer reads, so
    that no cell of its row is a default; the record of a top artist has
    [genres] besides.  The [type] tells the three kinds apart, and the top
    tracks and top artists have an empty [played_at] and their own
    [context]. *)
Theorem record_keys :
  (∀ item r,
     recent_record item = Ok r →
     dom r = {["type"; "track_name"; "artists"; "album"; "duration_ms"; "popularity";
               "played_at"; "context"]}
     ∧ r !! "type" = Some (PyStr "recent"))
  ∧ (∀ time_range track r,
       top_track_record time_range track = Ok r →
       dom r = {["type"; "track_name"; "artists"; "album"; "duration_ms"; "popularity";
                 "played_at"; "context"]}
       ∧ r !! "type" = Some (PyStr ("top_" +:+ time_range))
       ∧ r !! "played_at" = Some (PyStr "")
       ∧ r !! "context" = Some (PyStr "top_tracks"))
  ∧ (∀ time_range artist r,
       top_artist_record time_range artist = Ok r →
       dom r = {["type"; "track_name"; "artists"; "album"; "duration_ms"; "popularity";
                 "played_at"; "context"; "genres"]}
       ∧ r !! "type" = Some (PyStr ("artist_" +:+ time_range))
       ∧ r !! "played_at" = Some (PyStr "")
       ∧ r !! "context" = Some (PyStr "top_artists")).
Proof.
  split_and!.
  - intros item r Hr. unfold recent_record, rbind in Hr. name_steps Hr. injection Hr as <-.
    split; [|field]. rewrite !dom_insert_L, dom_empty_L. set_solver.
  - intros time_range track r Hr. unfold top_track_record, rbind in Hr.
    name_steps Hr. injection Hr as <-.
    split_and!; [|field..]. rewrite !dom_insert_L, dom_empty_L. set_solver.
  - intros time_range artist r Hr. unfold top_artist_record, rbind in Hr.
    name_steps Hr. injection Hr as <-.
    split_and!; [|field..]. rewrite !dom_insert_L, dom_empty_L. set_solver.
Qed.

(** X12.  The record of a play carries the type of its context when there
    is one, and its played-at stamp read in the format of the service and
    written in that of the sheet; a play with no stamp, or an empty one,
    gets the empty string and the stamp is not parsed. *)
Theorem recent_record_context_and_stamp (item : pyval) (r : gmap string pyval) :
  recent_record item = Ok r →
  (∀ context,
     getitem item "context" = Ok context → truthy context = true →
     ∃ t, getitem context "type" = Ok t ∧ r !! "context" = Some t)
  ∧ (∀ played_at,
       get_method item "played_at" (PyStr "") = Ok played_at →
       truthy played_at = false →
       r !! "played_at" = Some (PyStr ""))
  ∧ (∀ s,
       get_method item "played_at" (PyStr "") = Ok (PyStr s) →
       s ≠ "" →
       ∃ dt, strptime s "%Y-%m-%dT%H:%M:%S.%fZ" = Ok dt
             ∧ r !! "played_at" = Some (PyStr (strftime dt "%Y-%m-%d %H:%M:%S"))).
Proof.
  unfold recent_record, rbind. intros Hr. split_and!.
  - intros context Hcontext Htruthy.
    rewrite Hcontext, Htruthy in Hr. name_steps Hr. injection Hr as <-.
    eexists. split; [reflexivity|field].
  - intros played_at Hplayed Hfalsy.
    rewrite Hplayed in Hr. unfold format_played_at in Hr. rewrite Hfalsy in Hr.
    name_steps Hr. injection Hr as <-. field.
  - intros s Hplayed Hs.
    rewrite Hplayed in Hr. unfold format_played_at, rbind in Hr.
    assert (truthy (PyStr s) = true) as Htruthy.
    { simpl. destruct (String.eqb_spec s ""); done. }
    rewrite Htruthy in Hr. name_steps Hr. injection Hr as <-.
    match goal with E : context [strptime s _] |- _ =>
      destruct (strptime s "%Y-%m-%dT%H:%M:%S.%fZ") as [dt|];
        [injection E as <-|discriminate E] end.
    exists dt. split; [done|field].
Qed.

(** X13.  Of the genres of a top artist the record keeps the first three,
    joined by [", "], and drops the rest. *)
Theorem top_artist_first_three_genres (time_range : string) (artist : pyval)
    (genres : list string) (r : gmap string pyval) :
  getitem artist "genres" = Ok (PyList (PyStr <$> genres)) →
  top_artist_record time_range artist = Ok r →
  r !! "genres" = Some (PyStr (String.concat ", " (take 3 genres))).
Proof.
  intros Hgenres Hr.
  destruct (top_artist_record_genres _ _ _ Hr) as (gs & first3 & g & Hgs & Hfirst3 & Hg & ->).
  rewrite Hgenres in Hgs. injection Hgs as <-.
  simpl in Hfirst3. injection Hfirst3 as <-.
  unfold join, rbind in Hg. simpl in Hg.
  rewrite <- fmap_take, mapM_as_str in Hg. by injection Hg as <-.
Qed.


(** X15.  A response that is an object with no ["items"] makes each
    fetcher return the empty list and print the [KeyError], the quoted
    key. *)
Theorem fetch_missing_items (sp : spotify) (limit : Z) (time_range : string) (w : world)
    (d : gmap string pyval) :
  d !! "items" = None →
  (current_user_recently_played sp limit = Ok (PyDict d) →
   get_recently_played sp limit w
   = (Ok [], logged w [Print "Error fetching recently played: 'items'"]))
  ∧ (current_user_top_tracks sp limit time_range = Ok (PyDict d) →
     get_top_tracks sp limit time_range w
     = (Ok [], logged w [Print "Error fetching top tracks: 'items'"]))
  ∧ (current_user_top_artists sp limit time_range = Ok (PyDict d) →
     get_top_artists sp limit time_range w
     = (Ok [], logged w [Print "âœ— Error fetching top artists: 'items'"])).
Proof.
  intros Hd. rewrite get_recently_played_run, get_top_tracks_run, get_top_artists_run.
  unfold recently_played_data, top_tracks_data, top_artists_data, map_items,
    response_items, rbind.
  split_and!; intros ->; simpl; by rewrite Hd.
Qed.

End fetcher_extras.

Lemma fetch_all_or_nothing_witness :
  ∃ e, @Main.get_recently_played Sample.seconds Scenario.sp_one_bad 50 Sample.w0
       = (Ok [], logged Sample.w0 [Print ("Error fetching recently played: " +:+ str_exn e)]).
Proof.
  assert (PyDict ∅ ∈ [Sample.recent_item; PyDict ∅]) as Hin by (right; left).
  destruct (@fetch_all_or_nothing Sample.seconds Scenario.sp_one_bad 50 "medium_term"
              Sample.w0 (Sample.response [Sample.recent_item; PyDict ∅])
              [Sample.recent_item; PyDict ∅] (PyDict ∅) (KeyError "track") eq_refl Hin)
    as (Hrecent & _).
  exact (Hrecent eq_refl eq_refl).
Defined.

Lemma recent_record_context_and_stamp_witness :
  ∃ r, @Main.recent_record Sample.seconds Scenario.playlist_item = Ok r
       ∧ r !! "context" = Some (PyStr "playlist")
       ∧ r !! "played_at" = Some (PyStr "1714558830").
Proof.
  assert (∃ r, @Main.recent_record Sample.seconds Scenario.playlist_item = Ok r) as [r Hr]
    by (eexists; vm_compute; reflexivity).
  exists r.
  destruct (@recent_record_context_and_stamp Sample.seconds Scenario.playlist_item r Hr)
    as (Hcontext & _ & Hstamp).
  split; [exact Hr|]. split.
  - destruct (Hcontext (PyDict (<["type" := PyStr "playlist"]> ∅)) eq_refl eq_refl)
      as (t & Ht & Hrt).
    vm_compute in Ht. injection Ht as <-. exact Hrt.
  - destruct (Hstamp "2024-05-01T10:20:30.000Z" eq_refl) as (dt & Hdt & Hrdt);
      [discriminate|].
    vm_compute in Hdt. injection Hdt as <-. exact Hrdt.
Defined.

Lemma top_artist_first_three_genres_witness :
  Sample.artist_record !! "genres" = Some (PyStr "jazz, soul, blues").
Proof.
  assert (@Main.top_artist_record "medium_term" Sample.artist_item = Ok Sample.artist_record)
    as Hr by (vm_compute; reflexivity).
  exact (top_artist_first_three_genres "medium_term" Sample.artist_item
           ["jazz"; "soul"; "blues"; "folk"] Sample.artist_record eq_refl Hr).
Defined.

Lemma fetch_missing_items_witness :
  @Main.get_top_tracks Scenario.sp_no_items 20 "short_term" Sample.w0
  = (Ok [], logged Sample.w0 [Print "Error fetching top tracks: 'items'"]).
Proof.
  destruct (@fetch_missing_items Sample.seconds Scenario.sp_no_items 20 "short_term"
              Sample.w0 ∅ (lookup_empty "items")) as (_ & Htracks & _).
  exact (Htracks eq_refl).
Defined.

(** ** [authenticate_spotify] *)

Import Paths.

Section auth_paths.
Context `{SpotifyAuth.Spotipy}.
Import SpotifyAuth.

(** Runs the saved-token block in the goal along the results that the
    context gives. *)
Ltac run_saved :=
  unfold saved_token, refresh_if_expired, path_exists, read_file, open_truncate,
    write_file, remove_file, print, try_except, bind, lift, ret, emit;
  repeat progress
    (cbn [fst snd trace sheet script clock files];
     rewrite ?lookup_insert_eq;
     rewrite ?bool_decide_true by eauto;
     try match goal with
       | E : ?x = _ |- context [?x] => rewrite E
       end);
  rewrite <- ?app_assoc; cbn [app].

Ltac path_done rule :=
  eexists _, _, _; split; [by eapply rule|];
  run_saved; unfold files_after, gave_up;
  rewrite ?delete_insert_eq, ?insert_insert_eq, ?insert_id by done; done.

(** On a token file, the block follows one of the ten paths. *)
Lemma saved_token_path w text :
  files w !! token_file = Some text →
  ∃ sp es content,
    saved_path text sp es content
    ∧ saved_token w
      = (Ok sp, World (trace w ++ Print "📁 Found existing token file" :: es) (sheet w)
                  (script w) (clock w) (files_after content (files w))).
Proof.
  intros Hfile.
  destruct (json_load text) as [tok|e] eqn:Hload; [|path_done path_unreadable].
  destruct new_SpotifyOAuth as [[]|e] eqn:Hmanager; [|path_done path_no_manager].
  destruct (is_token_expired tok) as [[|]|e] eqn:Hexpired;
    [| |path_done path_expiry_unknown].
  - destruct (getitem tok "refresh_token") as [rt|e] eqn:Hrt;
      [|path_done path_no_refresh_token].
    destruct (refresh_access_token rt) as [tok'|e] eqn:Hrefresh;
      [|path_done path_refresh_failed].
    destruct (json_dump tok') as [text'|e] eqn:Hdump; [|path_done path_dump_failed].
    destruct (getitem tok' "access_token") as [access_token|e] eqn:Haccess.
    + path_done path_refreshed.
    + path_done path_refreshed_no_access.
  - destruct (getitem tok "access_token") as [access_token|e] eqn:Haccess.
    + path_done path_valid.
    + path_done path_valid_no_access.
Qed.

Lemma saved_token_absent w :
  files w !! token_file = None → saved_token w = (Ok None, w).
Proof.
  intros Hfile. unfold saved_token, path_exists, bind, ret. rewrite Hfile.
  rewrite bool_decide_false; [done|]. by intros [? ?].
Qed.

(** A path that gives no client removes the file, and one that gives a
    client leaves a file there. *)
Lemma saved_path_content text sp es content :
  saved_path text sp es content →
  (sp = None ∧ content = None ∧ last es = Some (FileRemove token_file))
  ∨ (∃ access_token, sp = Some (ClientAuth access_token) ∧ is_Some content).
Proof. destruct 1; [left| | |right|left..|right]; eauto. Qed.

(** The fresh authentication prints and does nothing else; it gives the
    client exactly when the profile can be read. *)
Lemma fresh_authentication_run w :
  ∃ lines,
    (fresh_authentication w).2 = logged w (Print <$> lines)
    ∧ match profile with
      | Ok _ => (fresh_authentication w).1 = Ok (Some ClientAuthManager)
      | Raise e =>
          (fresh_authentication w).1 = Ok None
          ∧ ∃ before, lines = before ++ failed_lines e
      end.
Proof.
  unfold fresh_authentication, profile, print, try_except, bind, lift, ret, emit, rbind, logged.
  cbn [fst snd trace sheet script clock files].
  destruct new_SpotifyOAuth as [[]|e]; cbn [fst snd trace sheet script clock files].
  2:{ eexists (_ :: _ :: failed_lines e). rewrite <- !app_assoc.
      split; [done|]. split; [done|]. by eexists [_; _]. }
  destruct current_user as [user|e]; cbn [fst snd trace sheet script clock files].
  2:{ eexists (_ :: _ :: failed_lines e). rewrite <- !app_assoc.
      split; [done|]. split; [done|]. by eexists [_; _]. }
  destruct (getitem user "display_name") as [display_name|e];
    cbn [fst snd trace sheet script clock files].
  2:{ eexists (_ :: _ :: failed_lines e). rewrite <- !app_assoc.
      split; [done|]. split; [done|]. by eexists [_; _]. }
  destruct (getitem user "email") as [email|e];
    cbn [fst snd trace sheet script clock files].
  - eexists [_; _; _; _]. rewrite <- !app_assoc. done.
  - eexists (_ :: _ :: _ :: failed_lines e). rewrite <- !app_assoc.
    split; [done|]. split; [done|]. by eexists [_; _; _].
Qed.

Lemma authenticate_spotify_run w :
  authenticate_spotify w
  = match saved_token (logged w [Print "🔑 Starting Spotify authentication..."]) with
    | (Ok (Some sp), w1) => (Ok (Some sp), w1)
    | (Ok None, w1) => fresh_authentication w1
    | (Raise e, w1) => (Raise e, w1)
    end.
Proof.
  unfold authenticate_spotify, bind, print, emit, ret, logged.
  by destruct (saved_token _) as [[[sp|]|e] w1].
Qed.

(** The whole run on a token file: the first line, the path of the block
    and, when that gave no client, the lines of the fresh authentication. *)
Lemma authenticate_spotify_path w text :
  files w !! token_file = Some text →
  ∃ sp es content lines,
    saved_path text sp es content
    ∧ events_of authenticate_spotify w
      = Print "🔑 Starting Spotify authentication..."
        :: Print "📁 Found existing token file" :: es ++ (Print <$> lines)
    ∧ files (authenticate_spotify w).2 = files_after content (files w)
    ∧ match sp with
      | Some sp => (authenticate_spotify w).1 = Ok (Some sp) ∧ lines = []
      | None =>
          match profile with
          | Ok _ => (authenticate_spotify w).1 = Ok (Some ClientAuthManager)
          | Raise e =>
              (authenticate_spotify w).1 = Ok None
              ∧ ∃ before, lines = before ++ failed_lines e
          end
      end.
Proof.
  intros Hfile. unfold events_of. rewrite authenticate_spotify_run.
  destruct (saved_token_path (logged w [Print "🔑 Starting Spotify authentication..."]) text)
    as (sp & es & content & Hpath & ->); [done|].
  destruct sp as [sp|].
  - exists (Some sp), es, content, []. cbn [fst snd trace sheet script clock files logged].
    rewrite <- !app_assoc, drop_app_length, app_nil_r. done.
  - cbv beta iota. set (w1 := World _ _ _ _ _).
    destruct (fresh_authentication_run w1) as (lines & Hworld & Hresult).
    exists None, es, content, lines. split_and!; [done| | |done].
    + rewrite Hworld. unfold w1. cbn [fst snd trace sheet script clock files logged].
      by rewrite <- !app_assoc, drop_app_length.
    + by rewrite Hworld.
Qed.

Lemma authenticate_spotify_absent w :
  files w !! token_file = None →
  authenticate_spotify w
  = fresh_authentication (logged w [Print "🔑 Starting Spotify authentication..."]).
Proof.
  intros Hfile. rewrite authenticate_spotify_run. by rewrite saved_token_absent.
Qed.


(** An event that is no printed line can only come from the block. *)
Lemma elem_of_run_events e a b es lines :
  (∀ line, e ≠ Print line) →
  e ∈ Print a :: Print b :: es ++ (Print <$> lines) ↔ e ∈ es.
Proof.
  intros He. rewrite !elem_of_cons, elem_of_app, list_elem_of_fmap.
  split; [|by auto].
  intros [->|[->|[?|(line & -> & _)]]];
    [by destruct (He a)|by destruct (He b)|done|by destruct (He line)].
Qed.

Ltac same_token :=
  repeat match goal with
    | E1 : ?x = Ok ?a, E2 : ?x = Ok ?b |- _ =>
        tryif unify a b then fail
        else (let E := fresh in assert (a = b) as E by congruence; subst b)
    end.

(** X16.  On a token file that loads, [refresh_access_token] is called, with
    the refresh token of the cached token, exactly when [is_token_expired]
    answered [True] and the cached token has a refresh token to read: a
    token that has expired and has none is not refreshed. *)
Theorem authenticate_refresh_iff (w : world) (text : string) (token_info : pyval)
    (refresh_token : pyval) :
  files w !! token_file = Some text →
  json_load text = Ok token_info →
  RefreshAccessToken refresh_token ∈ events_of authenticate_spotify w
  ↔ IsTokenExpired token_info true ∈ events_of authenticate_spotify w
    ∧ getitem token_info "refresh_token" = Ok refresh_token.
Proof.
  intros Hfile Hload.
  destruct (authenticate_spotify_path w text Hfile)
    as (sp & es & content & lines & Hpath & -> & _).
  rewrite !elem_of_run_events by done.
  destruct Hpath; same_token; unfold gave_up;
    rewrite ?elem_of_app, ?elem_of_cons, ?elem_of_nil;
    (split; [intros Hin|intros [Hin Hrt]; same_token]);
    destruct_or?; try discriminate; try congruence;
    try (injection Hin as ->); auto 10.
Qed.


(** X18.  A cached token that has not expired is used as it is: the client
    is built on its access token, nothing is written or removed, there is
    no refresh and no fresh authentication. *)
Theorem authenticate_with_valid_token (w : world) (text : string) (token_info : pyval)
    (access_token : pyval) :
  files w !! token_file = Some text →
  json_load text = Ok token_info →
  new_SpotifyOAuth = Ok tt →
  is_token_expired token_info = Ok false →
  getitem token_info "access_token" = Ok access_token →
  authenticate_spotify w
  = (Ok (Some (ClientAuth access_token)),
     logged w [Print "🔑 Starting Spotify authentication...";
               Print "📁 Found existing token file";
               IsTokenExpired token_info false;
               Print "✓ Authenticated with saved token"]).
Proof.
  intros Hfile Hload Hmanager Hexpired Haccess.
  rewrite authenticate_spotify_run. unfold logged. run_saved. done.
Qed.



(** X21.  [authenticate_spotify] never raises.  It returns [None] only when
    the fresh authentication could not read the profile, and then its last
    lines are the failure and the troubleshooting tips; a client built on
    an access token comes from a token file. *)
Theorem authenticate_spotify_result (w : world) :
  ∃ sp,
    (authenticate_spotify w).1 = Ok sp
    ∧ match sp with
      | None =>
          ∃ e before,
            profile = Raise e
            ∧ events_of authenticate_spotify w = before ++ (Print <$> failed_lines e)
      | Some ClientAuthManager => is_ok profile = true
      | Some (ClientAuth _) => is_Some (files w !! token_file)
      end.
Proof.
  destruct (files w !! token_file) as [text|] eqn:Hfile.
  - destruct (authenticate_spotify_path w text Hfile)
      as (sp & es & content & lines & Hpath & -> & _ & Hresult).
    destruct (saved_path_content _ _ _ _ Hpath)
      as [(-> & _ & _)|(access_token & -> & _)].
    + destruct profile as [p|e] eqn:Hprofile.
      * by exists (Some ClientAuthManager).
      * destruct Hresult as (Hr & before & ->). exists None. split; [done|].
        exists e, (Print "🔑 Starting Spotify authentication..."
                   :: Print "📁 Found existing token file" :: es ++ (Print <$> before)).
        split; [done|]. by rewrite fmap_app, app_assoc.
    + exists (Some (ClientAuth access_token)). split; [apply Hresult|done].
  - unfold events_of. rewrite authenticate_spotify_absent by done.
    destruct (fresh_authentication_run
                (logged w [Print "🔑 Starting Spotify authentication..."]))
      as (lines & Hworld & Hresult).
    rewrite Hworld. cbn [trace logged]. rewrite <- app_assoc, drop_app_length.
    destruct profile as [p|e] eqn:Hprofile.
    + by exists (Some ClientAuthManager).
    + destruct Hresult as (Hr & before & ->). exists None. split; [done|].
      exists e, (Print "🔑 Starting Spotify authentication..." :: (Print <$> before)).
      split; [done|]. by rewrite fmap_app.
Qed.



End auth_paths.

Lemma record_keys_witness :
  dom Scenario.bare_record
  = {["type"; "track_name"; "artists"; "album"; "duration_ms"; "popularity";
      "played_at"; "context"]}.
Proof.
  destruct (@record_keys Sample.seconds) as (Hrecent & _).
  assert (@Main.recent_record Sample.seconds Sample.bare_item = Ok Scenario.bare_record) as Hr
    by (vm_compute; reflexivity).
  destruct (Hrecent _ _ Hr) as [Hdom _]. exact Hdom.
Defined.

Lemma token_file_holds text :
  files (AuthSample.with_token text) !! SpotifyAuth.token_file = Some text.
Proof. apply lookup_insert_eq. Qed.

Lemma authenticate_refresh_iff_witness :
  RefreshAccessToken (PyStr "r-1")
  ∈ events_of (@SpotifyAuth.authenticate_spotify (AuthSample.library true))
      (AuthSample.with_token "expired")
  ↔ IsTokenExpired AuthSample.expired_token true
    ∈ events_of (@SpotifyAuth.authenticate_spotify (AuthSample.library true))
        (AuthSample.with_token "expired")
    ∧ getitem AuthSample.expired_token "refresh_token" = Ok (PyStr "r-1").
Proof.
  exact (@authenticate_refresh_iff (AuthSample.library true) (AuthSample.with_token "expired")
           "expired" AuthSample.expired_token (PyStr "r-1")
           (token_file_holds "expired") eq_refl).
Defined.


Lemma authenticate_with_valid_token_witness :
  (@SpotifyAuth.authenticate_spotify (AuthSample.library true)
     (AuthSample.with_token "valid")).1
  = Ok (Some (SpotifyAuth.ClientAuth (PyStr "a-1"))).
Proof.
  rewrite (@authenticate_with_valid_token (AuthSample.library true)
             (AuthSample.with_token "valid") "valid" AuthSample.valid_token (PyStr "a-1")
             (token_file_holds "valid") eq_refl eq_refl eq_refl eq_refl).
  reflexivity.
Defined.





(** ** [main] *)

Lemma get_google_sheet_failure_or_sheet w :
  (Main.get_google_sheet w).1 = Ok (Some Sheet1) ∨ (Main.get_google_sheet w).1 = Ok None.
Proof. destruct (get_google_sheet_run w); auto. Qed.

Section entry_point.
Context `{Datetime} `{Entry.Connect}.
Import Main Entry.

Lemma get_spotify_client_run w :
  get_spotify_client w
  = match (_ <- SpotifyOAuth_new ;; Spotify_new)%res with
    | Ok sp => (Ok (Some sp), w)
    | Raise e => (Ok None, logged w [Print ("Spotify authentication error: " +:+ str_exn e)])
    end.
Proof.
  unfold get_spotify_client, try_except, bind, lift, ret, rbind.
  destruct SpotifyOAuth_new; [|done]. by destruct Spotify_new.
Qed.

Lemma logged_logged w es1 es2 : logged (logged w es1) es2 = logged w (es1 ++ es2).
Proof. unfold logged. simpl. by rewrite app_assoc. Qed.

Lemma logged_nil w : logged w [] = w.
Proof. unfold logged. rewrite app_nil_r. by destruct w. Qed.

(** The four requests of [main], one after the other: the records that
    each fetcher hands on, and some printed lines. *)
Lemma fetchers_in_turn sp w :
  ∃ es,
    appended es = [] ∧
    (recent_tracks <- get_recently_played sp 50 ;;
     top_tracks_short <- get_top_tracks sp 20 "short_term" ;;
     top_tracks_medium <- get_top_tracks sp 20 "medium_term" ;;
     top_artists <- get_top_artists sp 20 "medium_term" ;;
     ret (recent_tracks, top_tracks_short, top_tracks_medium, top_artists))%py w
    = (Ok (fetched (recently_played_data sp 50),
           fetched (top_tracks_data sp 20 "short_term"),
           fetched (top_tracks_data sp 20 "medium_term"),
           fetched (top_artists_data sp 20 "medium_term")),
       logged w es).
Proof.
  unfold bind, ret.
  rewrite get_recently_played_run.
  destruct (recently_played_data sp 50) as [r1|e1]; cbn [fetched];
    rewrite get_top_tracks_run;
    destruct (top_tracks_data sp 20 "short_term") as [r2|e2]; cbn [fetched];
    rewrite get_top_tracks_run;
    destruct (top_tracks_data sp 20 "medium_term") as [r3|e3]; cbn [fetched];
    rewrite get_top_artists_run;
    destruct (top_artists_data sp 20 "medium_term") as [r4|e4]; cbn [fetched];
    rewrite ?logged_logged; eexists; (split; [|done]); done.
Qed.

Lemma print_summary_run r1 r2 r3 r4 data w :
  ∃ es, print_summary r1 r2 r3 r4 data w = (Ok tt, logged w es).
Proof.
  unfold print_summary, print, bind, emit. cbn [fst snd trace sheet script clock files].
  eexists [_; _; _; _; _; _]. unfold logged. by rewrite <- !app_assoc.
Qed.


Lemma fetch_and_export_no_data sp ws w :
  all_data sp = [] →
  ∃ es,
    appended es = []
    ∧ fetch_and_export sp ws w
      = (Ok tt, logged w (es ++ [Print "No data fetched from Spotify"])).
Proof.
  intros Hdata. destruct (fetchers_in_turn sp w) as (es & Hes & Hfetch).
  unfold fetch_and_export. unfold bind, ret in *.
  destruct (get_recently_played sp 50 w) as [[r1|?] w1]; [|done].
  destruct (get_top_tracks sp 20 "short_term" w1) as [[r2|?] w2]; [|done].
  destruct (get_top_tracks sp 20 "medium_term" w2) as [[r3|?] w3]; [|done].
  destruct (get_top_artists sp 20 "medium_term" w3) as [[r4|?] w4]; [|done].
  injection Hfetch as -> -> -> -> ->. fold (all_data sp). rewrite Hdata.
  exists es. split; [done|]. unfold print, emit. by rewrite <- logged_logged.
Qed.

Lemma fetch_and_export_ok sp ws w : (fetch_and_export sp ws w).1 = Ok tt.
Proof.
  destruct (fetchers_in_turn sp w) as (es & _ & Hfetch).
  unfold fetch_and_export. unfold bind, ret in *.
  destruct (get_recently_played sp 50 w) as [[r1|?] w1]; [|done].
  destruct (get_top_tracks sp 20 "short_term" w1) as [[r2|?] w2]; [|done].
  destruct (get_top_tracks sp 20 "medium_term" w2) as [[r3|?] w3]; [|done].
  destruct (get_top_artists sp 20 "medium_term" w3) as [[r4|?] w4]; [|done].
  injection Hfetch as -> -> -> -> ->. fold (all_data sp).
  destruct (all_data sp) as [|item data] eqn:Hdata; [done|].
  destruct (export_to_sheets_run ws (item :: data) (logged w es)) as (Hr & _); [done|].
  destruct (export_to_sheets ws (item :: data) (logged w es)) as [r w5].
  simpl in Hr. subst r.
  by destruct (print_summary_run (fetched (recently_played_data sp 50))
                 (fetched (top_tracks_data sp 20 "short_term"))
                 (fetched (top_tracks_data sp 20 "medium_term"))
                 (fetched (top_artists_data sp 20 "medium_term")) (item :: data) w5)
    as [es' ->].
Qed.


(** X24.  Without a client [main] stops at once: the error line is all it
    shows, and it makes no call to the spreadsheet service, so that sheet
    and script are as before. *)
Theorem main_without_client (w : world) (e : exn) :
  (_ <- SpotifyOAuth_new ;; Spotify_new)%res = Raise e →
  main w = (Ok tt, logged w [Print ("Spotify authentication error: " +:+ str_exn e)]).
Proof.
  intros Hclient. unfold main, bind. by rewrite get_spotify_client_run, Hclient.
Qed.

(** X25.  Without a worksheet [main] stops after [get_google_sheet]: no
    record is fetched, nothing is exported, and the rows of the sheet are
    as before. *)
Theorem main_without_worksheet (w : world) (sp : spotify) :
  (_ <- SpotifyOAuth_new ;; Spotify_new)%res = Ok sp →
  (get_google_sheet w).1 = Ok None →
  main w = (Ok tt, (get_google_sheet w).2)
  ∧ sheet (main w).2 = sheet w.
Proof.
  intros Hclient Hnone.
  assert (main w = (Ok tt, (get_google_sheet w).2)) as ->.
  { unfold main, bind. rewrite get_spotify_client_run, Hclient.
    destruct (get_google_sheet w) as [r w1]. simpl in Hnone. by subst r. }
  split; [done|]. simpl.
  destruct (get_google_sheet_run w); congruence.
Qed.


(** X27.  When the four fetchers give nothing, [main] hands no row to the
    worksheet beyond what [get_google_sheet] did: the sheet is as that
    left it, and with a worksheet the last line says that no data was
    fetched. *)
Theorem main_without_data (w : world) (sp : spotify) :
  (_ <- SpotifyOAuth_new ;; Spotify_new)%res = Ok sp →
  all_data sp = [] →
  sheet (main w).2 = sheet (get_google_sheet w).2
  ∧ appended (events_of main w) = appended (events_of get_google_sheet w)
  ∧ ((get_google_sheet w).1 = Ok (Some Sheet1) →
     last (events_of main w) = Some (Print "No data fetched from Spotify")).
Proof.
  intros Hclient Hdata.
  pose proof (quiet_trace _ w quiet_get_google_sheet) as Htrace.
  destruct (get_google_sheet_failure_or_sheet w) as [Hr|Hr].
  - destruct (fetch_and_export_no_data sp Sheet1 (get_google_sheet w).2 Hdata)
      as (es & Hes & Hrun).
    assert (main w = (Ok tt, logged (get_google_sheet w).2
                               (es ++ [Print "No data fetched from Spotify"]))) as Hmain.
    { unfold main, bind. rewrite get_spotify_client_run, Hclient.
      destruct (get_google_sheet w) as [r w1]. simpl in *. by subst r. }
    assert (events_of main w
            = events_of get_google_sheet w ++ es ++ [Print "No data fetched from Spotify"])
      as Hevents.
    { unfold events_of at 1. rewrite Hmain. cbn [snd trace logged].
      by rewrite Htrace, <- app_assoc, drop_app_length. }
    rewrite Hevents, Hmain. split_and!; [done| |].
    + by rewrite !appended_app, Hes, !app_nil_r.
    + intros _. by rewrite !app_assoc, last_snoc.
  - assert (main w = (Ok tt, (get_google_sheet w).2)) as Hmain.
    { unfold main, bind. rewrite get_spotify_client_run, Hclient.
      destruct (get_google_sheet w) as [r w1]. simpl in *. by subst r. }
    split_and!; [by rewrite Hmain| |intros Hsome; congruence].
    unfold events_of. by rewrite Hmain.
Qed.

(** X28.  [main] never raises, whatever fails: the client, the worksheet, a
    request, a batch. *)
Theorem main_never_raises (w : world) : (main w).1 = Ok tt.
Proof.
  unfold main, bind. rewrite get_spotify_client_run.
  destruct (_ <- SpotifyOAuth_new ;; Spotify_new)%res as [sp|e]; [|done].
  destruct (get_google_sheet_failure_or_sheet w) as [Hr|Hr];
    destruct (get_google_sheet w) as [r w1]; simpl in Hr; subst r; [|done].
  apply fetch_and_export_ok.
Qed.

End entry_point.

Lemma main_without_client_witness :
  (@Entry.main Sample.seconds Scenario.connect_down Sample.w0).2
  = logged Sample.w0
      [Print ("Spotify authentication error: "
              +:+ str_exn (ServiceError "You must supply a client_id"))].
Proof.
  rewrite (@main_without_client Sample.seconds Scenario.connect_down Sample.w0
             (ServiceError "You must supply a client_id") eq_refl).
  reflexivity.
Defined.

Lemma main_without_worksheet_witness :
  sheet (@Entry.main Sample.seconds (Scenario.connect Sample.sp) Scenario.w_headed).2
  = sheet Scenario.w_headed.
Proof.
  assert ((Main.get_google_sheet Scenario.w_headed).1 = Ok None) as Hnone
    by (vm_compute; reflexivity).
  destruct (@main_without_worksheet Sample.seconds (Scenario.connect Sample.sp)
              Scenario.w_headed Sample.sp eq_refl Hnone) as [_ Hsheet].
  exact Hsheet.
Defined.


Lemma main_without_data_witness :
  sheet (@Entry.main Sample.seconds (Scenario.connect Sample.sp_down) Sample.w0).2
  = sheet (Main.get_google_sheet Sample.w0).2.
Proof.
  assert (@all_data Sample.seconds Sample.sp_down = []) as Hdata by reflexivity.
  destruct (@main_without_data Sample.seconds (Scenario.connect Sample.sp_down) Sample.w0
              Sample.sp_down eq_refl Hdata) as [Hsheet _].
  exact Hsheet.
Defined.

(** A whole run on an empty sheet with the sample client: the header and
    then the rows of two plays, one top track of each window and one
    artist. *)
Example main_sample_run :
  length (sheet (@Entry.main Sample.seconds (Scenario.connect Sample.sp) Sample.w0).2) = 6
  ∧ head (sheet (@Entry.main Sample.seconds (Scenario.connect Sample.sp) Sample.w0).2)
    = head Main.headers
  ∧ last (sheet (@Entry.main Sample.seconds (Scenario.connect Sample.sp) Sample.w0).2)
    = Some Sample.artist_row.
Proof. vm_compute. done. Qed.
